(** * A shallow embedding of the chat server's dispatch engine

    Sources embedded here:
    - [src/server/chat/ChatServer.cpp]  (message receive path, frame buffer,
      routing, undelivered queue, connection open/close, watchdog);
    - [src/server/Settings.hpp]         (the configuration reader [from_json]).

    The server object is a record of its member maps; every member function is
    a function on that record.  Effects on the outside world (closing a socket,
    handing bytes to the transport, calling a listener) are appended to a
    trace.  An asynchronous transport send is recorded together with its
    completion callback, kept as data and run by [runCallback]. *)

From Stdlib Require Import ZArith Ascii String List Bool Lia.
From stdpp Require Import gmap strings list fin_maps pretty.

Local Open Scope string_scope.
Local Open Scope list_scope.
Local Open Scope Z_scope.

(** ** Identifiers and wire constants *)

(** [user_id_t] and [conn_id_t] are [unsigned long] in the source. *)
Abbreviation user_id_t := Z (only parsing).
Abbreviation conn_id_t := Z (only parsing).

(** Modelled from the spec: the header that declares the [FLAG_*] opcodes is
    not part of the sources at hand.  The values are the first frame byte of
    RFC 6455 (FIN bit and opcode); [sendTo] itself writes 129 for a text frame
    and names 130 for a binary one. *)
Definition FLAG_FRAME_TEXT : Z := 129.
Definition FLAG_FRAME_BINARY : Z := 130.
Definition FLAG_FRAGMENT_BEGIN_TEXT : Z := 1.
Definition FLAG_FRAGMENT_BEGIN_BINARY : Z := 2.
Definition FLAG_FRAGMENT_CONTINUE : Z := 0.
Definition FLAG_FRAGMENT_END : Z := 128.
Definition FLAG_PING : Z := 137.
Definition FLAG_PONG : Z := 138.

(** Modelled from the spec: the [STATUS_*] close codes are declared in a
    header that is not part of the sources at hand; section 6 of the
    specification lists them. *)
Inductive CloseStatus :=
| STATUS_UNAUTHORIZED
| STATUS_INVALID_QUERY_PARAMS
| STATUS_INVALID_MESSAGE_PAYLOAD
| STATUS_MESSAGE_TOO_BIG
| STATUS_INACTIVE_CONNECTION
| STATUS_POLICY_VIOLATION.

Definition status_code (s : CloseStatus) : Z :=
  match s with
  | STATUS_UNAUTHORIZED => 4001
  | STATUS_INVALID_QUERY_PARAMS => 4002
  | STATUS_INVALID_MESSAGE_PAYLOAD => 4003
  | STATUS_MESSAGE_TOO_BIG => 4004
  | STATUS_INACTIVE_CONNECTION => 4005
  | STATUS_POLICY_VIOLATION => 1008
  end.

#[global] Instance CloseStatus_eq_dec : EqDecision CloseStatus.
Proof. solve_decision. Defined.

(** ** Payload *)

(** Modelled from the spec: class [MessagePayload] is declared outside the
    sources at hand; the record follows the data model of section 3. *)
Record MessagePayload := mkPayload {
  p_sender : user_id_t;
  p_recipients : list user_id_t;
  p_type : string;
  p_text : string;
  p_valid : bool;
  p_error : string
}.

#[global] Instance MessagePayload_eq_dec : EqDecision MessagePayload.
Proof. solve_decision. Defined.

Definition isValid (p : MessagePayload) : bool := p_valid p.
Definition getError (p : MessagePayload) : string := p_error p.
Definition getType (p : MessagePayload) : string := p_type p.
Definition getSender (p : MessagePayload) : user_id_t := p_sender p.
Definition getRecipients (p : MessagePayload) : list user_id_t := p_recipients p.

(** Modelled from the spec: [setRecipient] leaves a single-recipient payload
    (section 3, "setRecipient producing a single-recipient copy"). *)
Definition setRecipient (uid : user_id_t) (p : MessagePayload) : MessagePayload :=
  mkPayload (p_sender p) [uid] (p_type p) (p_text p) (p_valid p) (p_error p).

(** Modelled from the spec: "true iff recipients set contains 0"
    (section 4.1). *)
Definition isForBot (p : MessagePayload) : bool :=
  existsb (Z.eqb 0) (p_recipients p).

(** Modelled from the spec: the reserved tag of a sent-status payload
    (section 4.1 names it [message_sent]). *)
Definition TYPE_SENT_STATUS : string := "message_sent".

Definition isTypeOfSentStatus (p : MessagePayload) : bool :=
  String.eqb (p_type p) TYPE_SENT_STATUS.

(** ** Collaborators that live outside the sources at hand

    The wire codec of [MessagePayload], the byte-count formatter, the query
    string parser, the authenticator and the listeners that the embedding
    program registers are used by [ChatServer.cpp] but defined elsewhere.  They are kept abstract: every result below holds for
    any implementation of this interface. *)
Class Collaborators := {
  (** [MessagePayload(const std::string &)] *)
  parsePayload : string -> MessagePayload;
  (** [MessagePayload()] *)
  emptyPayload : MessagePayload;
  (** [MessagePayload::toJson] *)
  toJson : MessagePayload -> string;
  (** [MessagePayload::createSendStatus] *)
  createSendStatus : MessagePayload -> MessagePayload;
  (** [wss::helpers::humanReadableBytes] *)
  humanReadableBytes : Z -> string;
  (** [wss::web::Request::parseParamsString] *)
  parseParamsString : string -> list (string * string);
  (** [m_auth->validateAuth], on the parameters and headers of a request *)
  validateAuth : list (string * string) -> list (string * string) -> bool;
  (** The callbacks registered with [addMessageListener], by position in
      [m_messageListeners]: what the listener leaves in the payload object it
      is handed as [std::move(payload)].  A listener that does not move from
      its argument leaves the payload as it was; one that does leaves a
      moved-from payload. *)
  listenerLeaves : nat -> MessagePayload -> MessagePayload
}.

(** ** Connections and the connection registry *)

(** A transport connection as the handlers see it: [getUniqueId], [getId]
    (the user id the registry stored in it), the query string and the headers
    of the upgrade request. *)
Record Connection := mkConnection {
  getUniqueId : conn_id_t;
  getId : user_id_t;
  queryString : string;
  header : list (string * string)
}.

#[global] Instance Connection_eq_dec : EqDecision Connection.
Proof. solve_decision. Defined.

(** Modelled from the spec: class [ConnectionStorage] is defined outside the
    sources at hand (section 4.2).  The registry maps a user to its
    connections by connection id; a null [WsConnectionPtr] is [None].
    Liveness is the set of connection ids that wait for a pong. *)
Record ConnectionStorage := mkStorage {
  cs_map : gmap Z (gmap Z (option Connection));
  cs_pongWait : gset Z
}.

Definition cs_conns (uid : user_id_t) (cs : ConnectionStorage)
  : gmap Z (option Connection) :=
  default ∅ (cs_map cs !! uid).

Definition cs_size (uid : user_id_t) (cs : ConnectionStorage) : nat :=
  size (cs_conns uid cs).

Definition cs_exists (uid : user_id_t) (cs : ConnectionStorage) : bool :=
  negb (Nat.eqb (cs_size uid cs) 0).

(** [get(user-id)]: fails with [ConnectionNotFound] when the user is absent. *)
Definition cs_get (uid : user_id_t) (cs : ConnectionStorage)
  : option (gmap Z (option Connection)) :=
  match cs_map cs !! uid with
  | Some m => if decide (m = ∅) then None else Some m
  | None => None
  end.

Definition cs_remove (uid : user_id_t) (cid : conn_id_t) (cs : ConnectionStorage)
  : ConnectionStorage :=
  match cs_map cs !! uid with
  | None => cs
  | Some m =>
      if decide (delete cid m = ∅)
      then mkStorage (delete uid (cs_map cs)) (cs_pongWait cs ∖ {[cid]})
      else mkStorage (<[uid := delete cid m]> (cs_map cs)) (cs_pongWait cs ∖ {[cid]})
  end.

Definition cs_remove_conn (c : Connection) (cs : ConnectionStorage)
  : ConnectionStorage :=
  cs_remove (getId c) (getUniqueId c) cs.

Definition cs_markPongWait (c : Connection) (cs : ConnectionStorage)
  : ConnectionStorage :=
  mkStorage (cs_map cs) (cs_pongWait cs ∪ {[getUniqueId c]}).

Definition cs_markPongReceived (c : Connection) (cs : ConnectionStorage)
  : ConnectionStorage :=
  mkStorage (cs_map cs) (cs_pongWait cs ∖ {[getUniqueId c]}).

(** ** Statistics *)

(** Modelled from the spec: class [Statistics] is defined outside the sources
    at hand (section 4.5): per-user counters and the time of the last
    activity, from which [getInactiveTime] is taken against the clock. *)
Record Statistics := mkStat {
  s_connections : Z;
  s_disconnections : Z;
  s_sent : Z;
  s_received : Z;
  s_bytes : Z;
  s_lastActivity : Z
}.

#[global] Instance Statistics_eq_dec : EqDecision Statistics.
Proof. solve_decision. Defined.

Definition newStatistics (now : Z) : Statistics := mkStat 0 0 0 0 0 now.

Definition addConnection (s : Statistics) : Statistics :=
  mkStat (s_connections s + 1) (s_disconnections s) (s_sent s) (s_received s)
         (s_bytes s) (s_lastActivity s).
Definition addDisconnection (s : Statistics) : Statistics :=
  mkStat (s_connections s) (s_disconnections s + 1) (s_sent s) (s_received s)
         (s_bytes s) (s_lastActivity s).
Definition addSendMessage (now : Z) (s : Statistics) : Statistics :=
  mkStat (s_connections s) (s_disconnections s) (s_sent s + 1) (s_received s)
         (s_bytes s) now.
Definition addReceivedMessage (now : Z) (s : Statistics) : Statistics :=
  mkStat (s_connections s) (s_disconnections s) (s_sent s) (s_received s + 1)
         (s_bytes s) now.
Definition addBytesTransferred (n : Z) (s : Statistics) : Statistics :=
  mkStat (s_connections s) (s_disconnections s) (s_sent s) (s_received s)
         (s_bytes s + n) (s_lastActivity s).
Definition getInactiveTime (now : Z) (s : Statistics) : Z :=
  now - s_lastActivity s.

(** ** Settings read by the server *)

(** Modelled from the spec: [ChatServer.cpp] includes [../base/Settings.hpp],
    which is not among the sources at hand; these are the fields of
    [wss::Settings::get()] that the server reads (section 6). *)
Record ServerSettings := mkSettings {
  chat_enableUndeliveredQueue : bool;
  chat_message_enableSendBack : bool;
  chat_message_ignoreTypesSendBack : list string;
  server_allowOverrideConnection : bool
}.

(** ** Effects and the server state *)

(** [SimpleWeb::ErrorCode]: the value of the error code; it tests true in a
    condition exactly when the value is not 0. *)
Abbreviation ErrorCode := Z (only parsing).

(** [boost::system::errc::broken_pipe] is [EPIPE]. *)
Definition broken_pipe : Z := 32.

(** The two completion lambdas handed to [connection->send], with what they
    capture. *)
Inductive Callback :=
| CbSendTo (recipient : user_id_t) (payload : MessagePayload) (cid : conn_id_t)
| CbPing (conn : Connection).

Inductive Event :=
| EvSendClose (conn : Connection) (status : CloseStatus) (reason : string)
| EvSend (conn : Connection) (data : string) (fin_rsv_opcode : Z) (cb : Callback)
| EvListener (listener : nat) (payload : MessagePayload)
| EvDisconnect (cid : conn_id_t).

#[global] Instance Callback_eq_dec : EqDecision Callback.
Proof. solve_decision. Defined.
#[global] Instance Event_eq_dec : EqDecision Event.
Proof. solve_decision. Defined.

Record ChatServer := mkServer {
  m_maxMessageSize : Z;
  m_enableMessageDeliveryStatus : bool;
  m_connectionStorage : ConnectionStorage;
  m_frameBuffer : gmap Z string;
  m_undeliveredMessagesMap : gmap Z (list MessagePayload);
  m_statistics : gmap Z Statistics;
  m_messageListeners : nat;
  settings : ServerSettings;
  clock : Z;
  trace : list Event
}.

Definition set_storage (f : ConnectionStorage -> ConnectionStorage) (st : ChatServer) :=
  mkServer (m_maxMessageSize st) (m_enableMessageDeliveryStatus st)
           (f (m_connectionStorage st)) (m_frameBuffer st)
           (m_undeliveredMessagesMap st) (m_statistics st)
           (m_messageListeners st) (settings st) (clock st) (trace st).

Definition set_frameBuffer (f : gmap Z string -> gmap Z string) (st : ChatServer) :=
  mkServer (m_maxMessageSize st) (m_enableMessageDeliveryStatus st)
           (m_connectionStorage st) (f (m_frameBuffer st))
           (m_undeliveredMessagesMap st) (m_statistics st)
           (m_messageListeners st) (settings st) (clock st) (trace st).

Definition set_undelivered
  (f : gmap Z (list MessagePayload) -> gmap Z (list MessagePayload))
  (st : ChatServer) :=
  mkServer (m_maxMessageSize st) (m_enableMessageDeliveryStatus st)
           (m_connectionStorage st) (m_frameBuffer st)
           (f (m_undeliveredMessagesMap st)) (m_statistics st)
           (m_messageListeners st) (settings st) (clock st) (trace st).

Definition set_statistics (f : gmap Z Statistics -> gmap Z Statistics) (st : ChatServer) :=
  mkServer (m_maxMessageSize st) (m_enableMessageDeliveryStatus st)
           (m_connectionStorage st) (m_frameBuffer st)
           (m_undeliveredMessagesMap st) (f (m_statistics st))
           (m_messageListeners st) (settings st) (clock st) (trace st).

Definition emit (e : Event) (st : ChatServer) :=
  mkServer (m_maxMessageSize st) (m_enableMessageDeliveryStatus st)
           (m_connectionStorage st) (m_frameBuffer st)
           (m_undeliveredMessagesMap st) (m_statistics st)
           (m_messageListeners st) (settings st) (clock st) (trace st ++ [e])%list.

(** [connection->sendClose(status, reason)] *)
Definition sendClose (c : Connection) (status : CloseStatus) (reason : string)
  (st : ChatServer) : ChatServer :=
  emit (EvSendClose c status reason) st.

(** [getStat]: the entry of a user, created on first use. *)
Definition getStat (id : user_id_t) (st : ChatServer) : ChatServer :=
  match m_statistics st !! id with
  | Some _ => st
  | None => set_statistics (insert id (newStatistics (clock st))) st
  end.

(** [getStat(id)->f()]: create the entry if needed, then update it in place. *)
Definition onStat (id : user_id_t) (f : Statistics -> Statistics) (st : ChatServer)
  : ChatServer :=
  set_statistics (alter f id) (getStat id st).

(** ** Frame buffer *)

Definition hasFrameBuffer (senderId : user_id_t) (st : ChatServer) : bool :=
  bool_decide (is_Some (m_frameBuffer st !! senderId)).

Definition writeFrameBuffer (senderId : user_id_t) (input : string) (clear : bool)
  (st : ChatServer) : ChatServer :=
  let st1 :=
    if negb (hasFrameBuffer senderId st)
    then set_frameBuffer (insert senderId "") st
    else if clear then set_frameBuffer (insert senderId "") st
    else st in
  set_frameBuffer (alter (fun s => s +:+ input) senderId) st1.

Definition readFrameBuffer (senderId : user_id_t) (clear : bool) (st : ChatServer)
  : string * ChatServer :=
  if negb (hasFrameBuffer senderId st) then ("", st)
  else
    let out := default "" (m_frameBuffer st !! senderId) in
    if clear then (out, set_frameBuffer (delete senderId) st)
    else (out, st).

(** ** Undelivered queue *)

(** [m_undeliveredMessagesMap[recipient]]: the queue of a recipient. *)
Definition queueOf (recipient : user_id_t) (st : ChatServer) : list MessagePayload :=
  default [] (m_undeliveredMessagesMap st !! recipient).

(** [m_undeliveredMessagesMap[recipient].push(payload)]; [operator[]] creates
    the queue when the recipient has none. *)
Definition pushUndelivered (payload : MessagePayload) (recipient : user_id_t)
  (st : ChatServer) : ChatServer :=
  set_undelivered (insert recipient (queueOf recipient st ++ [payload])%list) st.

Definition enqueueUndeliveredMessage (payload : MessagePayload) (st : ChatServer)
  : ChatServer :=
  fold_left (fun s recipient => pushUndelivered payload recipient s)
            (getRecipients payload) st.

Definition handleUndeliverable (uid : user_id_t) (payload : MessagePayload)
  (st : ChatServer) : ChatServer :=
  if negb (chat_enableUndeliveredQueue (settings st)) then st
  else
    let inaccessibleUserPayload := setRecipient uid payload in
    enqueueUndeliveredMessage inaccessibleUserPayload st.

(** [hasUndeliveredMessages]: reads through [operator[]], which creates an
    empty queue for a recipient that has none. *)
Definition hasUndeliveredMessages (recipientId : user_id_t) (st : ChatServer)
  : bool * ChatServer :=
  let st1 := set_undelivered (insert recipientId (queueOf recipientId st)) st in
  (negb (Nat.eqb (length (queueOf recipientId st)) 0), st1).

(** ** Helpers of other libraries *)

Definition to_lower (c : ascii) : ascii :=
  let n := N_of_ascii c in
  if ((65 <=? n) && (n <=? 90))%N then ascii_of_N (n + 32) else c.

Fixpoint lower (s : string) : string :=
  match s with
  | EmptyString => EmptyString
  | String c r => String (to_lower c) (lower r)
  end.

(** [toolboxpp::strings::equalsIgnoreCase] *)
Definition equalsIgnoreCase (a b : string) : bool := String.eqb (lower a) (lower b).

(** A received frame: the first byte and the bytes of the body. *)
Record Message := mkMessage {
  fin_rsv_opcode : Z;
  msg_string : string
}.

(** ** Routing *)

Section Server.
Context {C : Collaborators}.

(** One turn of the loop of [callOnMessageListeners]: the listener is called
    with the local [payload] object as it is now, and the object is left as
    the listener left it. *)
Definition callListener (sp : ChatServer * MessagePayload) (listener : nat)
  : ChatServer * MessagePayload :=
  (emit (EvListener listener (snd sp)) (fst sp), listenerLeaves listener (snd sp)).

(** [payload] is the function's own copy (it is taken by value): every
    listener is handed [std::move(payload)] of that one object, so a listener
    after one that moved from it receives what was left. *)
Definition callOnMessageListeners (payload : MessagePayload) (st : ChatServer)
  : ChatServer :=
  fst (fold_left callListener (seq 0 (m_messageListeners st)) (st, payload)).

(** [onMessageSent], with the routing function it calls for the delivery
    status left open; [onMessageSent] below closes it with [send]. *)
Definition onMessageSent_with (send : MessagePayload -> ChatServer -> ChatServer)
  (payload : MessagePayload) (bytesTransferred : Z) (hasSent : bool)
  (st : ChatServer) : ChatServer :=
  if isTypeOfSentStatus payload then st
  else
    let st1 :=
      onStat (getSender payload)
             (fun s => addBytesTransferred bytesTransferred
                         (addSendMessage (clock st) s)) st in
    let st2 :=
      fold_left
        (fun s i =>
           if hasSent
           then onStat i (fun x => addBytesTransferred bytesTransferred
                                     (addReceivedMessage (clock s) x)) s
           else s)
        (getRecipients payload) st1 in
    if m_enableMessageDeliveryStatus st2 && hasSent
    then send (createSendStatus payload) st2
    else st2.

(** [onMessageSent(payload, bytes, false)]: with [hasSent] false the call of
    [send] is never reached, so any function can stand for it. *)
Definition onMessageSent_unsent (payload : MessagePayload) (bytesTransferred : Z)
  (st : ChatServer) : ChatServer :=
  onMessageSent_with (fun _ s => s) payload bytesTransferred false st.

(** The body of the loop of [sendTo] over the connections of a recipient. *)
Definition sendTo_each (recipient : user_id_t) (payload : MessagePayload)
  (payloadString : string) (opcode : Z)
  (s : ChatServer) (connection : Z * option Connection) : ChatServer :=
  match connection.2 with
  | None => set_storage (cs_remove recipient connection.1) s
  | Some conn =>
      emit (EvSend conn payloadString opcode
                   (CbSendTo recipient payload connection.1)) s
  end.

Definition sendTo (recipient : user_id_t) (payload : MessagePayload)
  (st : ChatServer) : ChatServer :=
  let payloadString := toJson payload in
  let payloadSize := Z.of_nat (String.length payloadString) in
  let opcode := 129 in
  if Nat.eqb (cs_size recipient (m_connectionStorage st)) 0 then
    let st1 := handleUndeliverable recipient payload st in
    let sent := setRecipient recipient payload in
    onMessageSent_unsent sent payloadSize st1
  else
    match cs_get recipient (m_connectionStorage st) with
    | Some connections =>
        fold_left (sendTo_each recipient payload payloadString opcode)
                  (map_to_list connections) st
    | None =>
        (* catch (const ConnectionNotFound &) *)
        handleUndeliverable recipient payload st
    end.

Definition send (payload : MessagePayload) (st : ChatServer) : ChatServer :=
  if isForBot payload then callOnMessageListeners payload st
  else
    let st1 := callOnMessageListeners payload st in
    fold_left (fun s uid => if uid =? 0 then s else sendTo uid payload s)
              (getRecipients payload) st1.

Definition onMessageSent (payload : MessagePayload) (bytesTransferred : Z)
  (hasSent : bool) (st : ChatServer) : ChatServer :=
  onMessageSent_with send payload bytesTransferred hasSent st.

(** The completion lambdas of [connection->send], run by the transport when
    the asynchronous send has finished with [errorCode], [ts] bytes sent. *)
Definition runCallback (cb : Callback) (errorCode : ErrorCode) (ts : Z)
  (st : ChatServer) : ChatServer :=
  match cb with
  | CbSendTo recipient payload cid =>
      if negb (errorCode =? 0) then
        let st1 :=
          if errorCode =? broken_pipe
          then set_storage (cs_remove recipient cid) st
          else st in
        handleUndeliverable recipient payload st1
      else
        let sent := setRecipient recipient payload in
        onMessageSent sent ts true st
  | CbPing conn =>
      if negb (errorCode =? 0)
      then set_storage (cs_remove_conn conn) st
      else set_storage (cs_markPongWait conn) st
  end.

(** ** Receiving a frame *)

(** The part of [onMessage] after the payload has been built: validity check,
    send-back to the sender, routing. *)
Definition onMessage_route (connection : Connection) (payload : MessagePayload)
  (st : ChatServer) : ChatServer :=
  if negb (isValid payload) then
    sendClose connection STATUS_INVALID_MESSAGE_PAYLOAD
              ("Invalid payload. " +:+ getError payload) st
  else
    let st1 :=
      if chat_message_enableSendBack (settings st) then
        let isIgnoredType :=
          existsb (fun ignore => equalsIgnoreCase (getType payload) ignore)
                  (chat_message_ignoreTypesSendBack (settings st)) in
        if negb isIgnoredType && negb (isForBot payload)
        then sendTo (getSender payload) payload st
        else st
      else st in
    send payload st1.

Definition onMessage (connection : Connection) (message : Message)
  (st : ChatServer) : ChatServer :=
  let opcode := fin_rsv_opcode message in
  if negb (opcode =? FLAG_FRAME_TEXT) && negb (opcode =? FLAG_FRAME_BINARY) then
    let senderId := getId connection in
    if (opcode =? FLAG_FRAGMENT_BEGIN_TEXT) || (opcode =? FLAG_FRAGMENT_BEGIN_BINARY)
    then writeFrameBuffer senderId (msg_string message) true st
    else if opcode =? FLAG_FRAGMENT_CONTINUE
    then writeFrameBuffer senderId (msg_string message) false st
    else if opcode =? FLAG_FRAGMENT_END then
      let (out, st1) := readFrameBuffer senderId true st in
      let buffered := out +:+ msg_string message in
      if m_maxMessageSize st1 <? Z.of_nat (String.length buffered) then
        sendClose connection STATUS_MESSAGE_TOO_BIG
                  ("Message to big. Maximum size: "
                   +:+ humanReadableBytes (m_maxMessageSize st1)) st1
      else onMessage_route connection (parsePayload buffered) st1
    else onMessage_route connection emptyPayload st
  else onMessage_route connection (parsePayload (msg_string message)) st.

End Server.

(** ** [std::stoul] *)

(** The three ways a call of [std::stoul(str)] ends: a value, or one of the
    two exceptions the standard gives it. *)
Inductive StoulResult :=
| StoulValue (v : Z)
| StoulInvalidArgument
| StoulOutOfRange.

(** [unsigned long] has 64 bits. *)
Definition ULONG_MAX : Z := 2 ^ 64 - 1.

Definition isspace (c : ascii) : bool :=
  let n := N_of_ascii c in
  ((n =? 32) || ((9 <=? n) && (n <=? 13)))%N.

Fixpoint skip_space (s : string) : string :=
  match s with
  | String c r => if isspace c then skip_space r else s
  | EmptyString => s
  end.

Definition digit_of (c : ascii) : option Z :=
  let n := N_of_ascii c in
  if ((48 <=? n) && (n <=? 57))%N then Some (Z.of_N n - 48) else None.

(** The longest prefix of decimal digits, as a number; [None] when the string
    does not start with a digit. *)
Fixpoint read_digits (s : string) (acc : option Z) : option Z :=
  match s with
  | String c r =>
      match digit_of c with
      | Some d => read_digits r (Some (10 * default 0 acc + d))
      | None => acc
      end
  | EmptyString => acc
  end.

(** [std::stoul(str)] in base 10, as [strtoul] reads it: leading white space,
    an optional sign, then the digits; characters after the digits are
    ignored.  No digit at all is [std::invalid_argument]; a magnitude above
    [ULONG_MAX] is [std::out_of_range]; a minus sign negates the value in
    [unsigned long]. *)
Definition stoul (str : string) : StoulResult :=
  let s1 := skip_space str in
  let '(neg, s2) :=
    match s1 with
    | String "-"%char r => (true, r)
    | String "+"%char r => (false, r)
    | _ => (false, s1)
    end in
  match read_digits s2 None with
  | None => StoulInvalidArgument
  | Some v =>
      if ULONG_MAX <? v then StoulOutOfRange
      else StoulValue (if neg then (2 ^ 64 - v) mod 2 ^ 64 else v)
  end.

(** ** The request of a connection *)

Definition hasParam (key : string) (params : list (string * string)) : bool :=
  existsb (fun kv => String.eqb kv.1 key) params.

Fixpoint getParam (key : string) (params : list (string * string)) : string :=
  match params with
  | [] => ""
  | kv :: r => if String.eqb kv.1 key then kv.2 else getParam key r
  end.

(** ** Registering a connection *)

(** Modelled from the spec: [ConnectionStorage::add] is defined outside the
    sources at hand (section 4.2): it stores the user id in the connection and
    registers it; with [allowOverrideConnection] the earlier connections of
    the user are first closed with [POLICY_VIOLATION] (the spec gives no
    reason text). *)
Definition storage_add (id : user_id_t) (connection : Connection) (st : ChatServer)
  : ChatServer :=
  let c := mkConnection (getUniqueId connection) id
                        (queryString connection) (header connection) in
  let st1 :=
    if server_allowOverrideConnection (settings st) then
      let prior := map_to_list (cs_conns id (m_connectionStorage st)) in
      let st' :=
        fold_left
          (fun s e => match e.2 with
                      | Some old => sendClose old STATUS_POLICY_VIOLATION "" s
                      | None => s
                      end) prior st in
      set_storage (fun cs => mkStorage (delete id (cs_map cs)) (cs_pongWait cs)) st'
    else st in
  set_storage
    (fun cs =>
       mkStorage (<[id := <[getUniqueId c := Some c]> (cs_conns id cs)]> (cs_map cs))
                 (cs_pongWait cs)) st1.

(** The entry of a connection that waits for a pong. *)
Definition awaiting (cs : ConnectionStorage) (e : Z * option Connection) : Prop :=
  e.1 ∈ cs_pongWait cs.

#[global] Instance awaiting_dec cs e : Decision (awaiting cs e).
Proof. unfold awaiting. apply _. Defined.

Definition dangling (cs : ConnectionStorage) : list (Z * option Connection) :=
  flat_map (fun t => map_to_list (filter (awaiting cs) t.2))
           (map_to_list (cs_map cs)).

Definition keep_alive (cs : ConnectionStorage) (m : gmap Z (option Connection))
  : option (gmap Z (option Connection)) :=
  let m' := filter (fun e => ¬ awaiting cs e) m in
  if decide (m' = ∅) then None else Some m'.

(** Modelled from the spec: [ConnectionStorage::disconnectWithoutPong] is
    defined outside the sources at hand (section 4.2): it closes and removes
    every connection that still waits for a pong and returns how many. *)
Definition disconnectWithoutPong (st : ChatServer) : Z * ChatServer :=
  let cs := m_connectionStorage st in
  let gone := dangling cs in
  let st1 := fold_left (fun s e => emit (EvDisconnect e.1) s) gone st in
  (Z.of_nat (length gone),
   set_storage (fun _ => mkStorage (omap (keep_alive cs) (cs_map cs)) ∅) st1).

Section Handlers.
Context {C : Collaborators}.

(** ** Redelivery *)

(** The [while (!queue.empty())] loop of [redeliverMessagesTo].  [queue] is a
    reference into the map, so every turn reads the queue as [send] left it.
    The loop runs while the queue is not empty: [fuel] bounds the number of
    turns and [None] means the bound was reached with the queue not empty. *)
Fixpoint redeliver_loop (fuel : nat) (recipientId : user_id_t) (cnt : Z)
  (st : ChatServer) : option (Z * ChatServer) :=
  match queueOf recipientId st with
  | [] => Some (cnt, st)
  | payload :: rest =>
      match fuel with
      | O => None
      | S fuel' =>
          let st1 := set_undelivered (insert recipientId rest) st in
          let st2 := send payload st1 in
          redeliver_loop fuel' recipientId (cnt + 1) st2
      end
  end.

Definition redeliverMessagesTo (fuel : nat) (recipientId : user_id_t)
  (st : ChatServer) : option (Z * ChatServer) :=
  if negb (chat_enableUndeliveredQueue (settings st)) then Some (0, st)
  else
    let (has, st1) := hasUndeliveredMessages recipientId st in
    if negb has then Some (0, st1)
    else redeliver_loop fuel recipientId 0 st1.

(** ** Opening and closing a connection *)

(** How a handler ends: it returns, or an exception leaves it. *)
Inductive Outcome :=
| Returned (st : ChatServer)
| Thrown (what : string) (st : ChatServer).

Definition onConnected (fuel : nat) (connection : Connection) (st : ChatServer)
  : option Outcome :=
  let params := parseParamsString (queryString connection) in
  if negb (validateAuth params (header connection)) then
    Some (Returned (sendClose connection STATUS_UNAUTHORIZED "Unauthorized" st))
  else if Nat.eqb (length params) 0 then
    Some (Returned (sendClose connection STATUS_INVALID_QUERY_PARAMS
                              "Invalid request" st))
  else if negb (hasParam "id" params) || String.eqb (getParam "id" params) "" then
    Some (Returned (sendClose connection STATUS_INVALID_QUERY_PARAMS
                              "Id required in query parameter: ?id={id}" st))
  else
    match stoul (getParam "id" params) with
    | StoulInvalidArgument =>
        (* catch (const std::invalid_argument &e), e.what() is "stoul" *)
        let errReason :=
          "Passed invalid id: id=" +:+ getParam "id" params +:+ ". " +:+ "stoul" in
        Some (Returned (sendClose connection STATUS_INVALID_QUERY_PARAMS
                                  errReason st))
    | StoulOutOfRange =>
        (* no handler for std::out_of_range: the exception leaves the function *)
        Some (Thrown "std::out_of_range" st)
    | StoulValue id =>
        let st1 := storage_add id connection st in
        let st2 := onStat id addConnection st1 in
        match redeliverMessagesTo fuel id st2 with
        | Some (_, st3) => Some (Returned st3)
        | None => None
        end
    end.

Definition onDisconnected (connection : Connection) (status : Z) (reason : string)
  (st : ChatServer) : ChatServer :=
  if negb (cs_exists (getId connection) (m_connectionStorage st)) then st
  else
    let st1 := onStat (getId connection) addDisconnection st in
    set_storage (cs_remove_conn connection) st1.

Definition onPong (connection : Connection) (st : ChatServer) : ChatServer :=
  set_storage (cs_markPongReceived connection) st.

(** ** Watchdog *)

(** The statistics entry [ref] that [getStat(t.first)] refers to. *)
Definition statOf (uid : user_id_t) (st : ChatServer) : Statistics :=
  default (newStatistics (clock st)) (m_statistics st !! uid).

(** [fmt::format("Inactive more than {0:d} seconds ({1:d})", lifetime, t)] *)
Definition inactiveReason (lifetime inactive : Z) : string :=
  "Inactive more than " +:+ pretty lifetime +:+ " seconds ("
  +:+ pretty inactive +:+ ")".

(** The body of the inner loop of [watchdogWorker], for one connection of
    user [uid]. *)
Definition watchdog_conn (lifetime : Z) (uid : user_id_t) (s : ChatServer)
  (conn : Z * option Connection) : ChatServer :=
  match conn.2 with
  | None => set_storage (cs_remove uid conn.1) s
  | Some c =>
      if lifetime <=? getInactiveTime (clock s) (statOf uid s) then
        sendClose c STATUS_INACTIVE_CONNECTION
                  (inactiveReason lifetime (getInactiveTime (clock s) (statOf uid s))) s
      else
        emit (EvSend c "." FLAG_PING (CbPing c)) s
  end.

(** The body of the outer loop, for one user of the snapshot. *)
Definition watchdog_user (lifetime : Z) (s : ChatServer)
  (t : Z * gmap Z (option Connection)) : ChatServer :=
  fold_left (watchdog_conn lifetime t.1) (map_to_list t.2) (getStat t.1 s).

(** The first half of a turn of [watchdogWorker], after the sleep of one
    minute: the loop over the snapshot [m_connectionStorage->get()]. *)
Definition watchdog_scan (lifetime : Z) (st : ChatServer) : ChatServer :=
  fold_left (watchdog_user lifetime)
            (map_to_list (cs_map (m_connectionStorage st))) st.

(** The second half of a turn, after the sleep of two seconds: the count that
    [disconnectWithoutPong] returns is kept for the log line. *)
Definition watchdog_prune (st : ChatServer) : Z * ChatServer :=
  disconnectWithoutPong st.

End Handlers.

(** ** The configuration reader of [Settings.hpp] *)

Module SettingsHpp.

(** A JSON value as [nlohmann::json] holds it.  An object is an association
    list read by its first matching key; numbers are the integers (a
    configuration document of this server has no fractional option). *)
#[warnings="-register-all"]
Inductive json :=
| JNull
| JBool (b : bool)
| JNum (z : Z)
| JStr (s : string)
| JArr (l : list json)
| JObj (members : list (string * json)).

(** A call into the JSON library returns or throws. *)
Inductive result (A : Type) :=
| Ok (a : A)
| Throw (what : string).
Arguments Ok {A} a.
Arguments Throw {A} what.

Definition bind {A B} (r : result A) (k : A -> result B) : result B :=
  match r with
  | Ok a => k a
  | Throw w => Throw w
  end.

Notation "x <- r ;; k" := (bind r (fun x => k))
  (at level 100, r at next level, right associativity).

Fixpoint assoc (key : string) (members : list (string * json)) : option json :=
  match members with
  | [] => None
  | (k, v) :: r => if String.eqb k key then Some v else assoc key r
  end.

(** [j.find(key) != j.end()] *)
Definition has (j : json) (key : string) : bool :=
  match j with
  | JObj members => bool_decide (is_Some (assoc key members))
  | _ => false
  end.

(** [j.at(key)] *)
Definition at_ (j : json) (key : string) : result json :=
  match j with
  | JObj members =>
      match assoc key members with
      | Some v => Ok v
      | None => Throw "out_of_range.403"
      end
  | _ => Throw "type_error.304"
  end.

(** [j[key]] on a key that [find] or [count] has shown to be present. *)
Definition index (j : json) (key : string) : json :=
  match j with
  | JObj members => default JNull (assoc key members)
  | _ => JNull
  end.

(** Conversions [get<T>()]. *)
Definition get_string (j : json) : result string :=
  match j with
  | JStr s => Ok s
  | _ => Throw "type_error.302"
  end.

Definition get_bool (j : json) : result bool :=
  match j with
  | JBool b => Ok b
  | _ => Throw "type_error.302"
  end.

Definition get_integer (j : json) : result Z :=
  match j with
  | JNum z => Ok z
  | JBool b => Ok (if b then 1 else 0)
  | _ => Throw "type_error.302"
  end.

(** [static_cast] to an unsigned or a signed type of [w] bits. *)
Definition to_unsigned (w : Z) (z : Z) : Z := z mod 2 ^ w.
Definition to_signed (w : Z) (z : Z) : Z :=
  (z + 2 ^ (w - 1)) mod 2 ^ w - 2 ^ (w - 1).

(** [j.value(key, def)], for a conversion [get] to the type of [def]. *)
Definition value {A} (get : json -> result A) (j : json) (key : string) (def : A)
  : result A :=
  match j with
  | JObj members =>
      match assoc key members with
      | Some v => get v
      | None => Ok def
      end
  | _ => Throw "type_error.306"
  end.

Definition value_string := value get_string.
Definition value_bool := value get_bool.
Definition value_uint16 j key def :=
  value (fun v => z <- get_integer v ;; Ok (to_unsigned 16 z)) j key def.
Definition value_uint32 j key def :=
  value (fun v => z <- get_integer v ;; Ok (to_unsigned 32 z)) j key def.
Definition value_int j key def :=
  value (fun v => z <- get_integer v ;; Ok (to_signed 32 z)) j key def.
Definition value_long j key def :=
  value (fun v => z <- get_integer v ;; Ok (to_signed 64 z)) j key def.

Record AuthSettings := mkAuth {
  auth_type : string;
  auth_data : json
}.

Record Watchdog := mkWatchdog {
  watchdog_enabled : bool;
  connectionLifetimeSeconds : Z
}.

Record Server := mkServerSettings {
  endpoint : string;
  address : string;
  port : Z;
  workers : Z;
  tmpDir : string;
  allowOverrideConnection : bool;
  watchdog : Watchdog
}.

Record RestApi := mkRestApi {
  restApi_enabled : bool;
  restApi_address : string;
  restApi_port : Z;
  auth : AuthSettings
}.

(** [struct Chat::Message] *)
Record ChatMessage := mkChatMessage {
  maxSize : string;
  enableDeliveryStatus : bool
}.

Record Chat := mkChat {
  message : ChatMessage;
  enableUndeliveredQueue : bool
}.

(** [struct Event] *)
Record EventSettings := mkEvent {
  event_enabled : bool;
  enableRetry : bool;
  retryIntervalSeconds : Z;
  retryCount : Z;
  sendStrategy : string;
  targets : json
}.

Record Settings := mkSettingsHpp {
  server : Server;
  restApi : RestApi;
  chat : Chat;
  event : EventSettings
}.

(** The member initialisers of the structs. *)
Definition defaults : Settings :=
  mkSettingsHpp
    (mkServerSettings "/chat" "*" 8085 8 "/tmp" false (mkWatchdog false 600))
    (mkRestApi false "*" 8082 (mkAuth "noauth" JNull))
    (mkChat (mkChatMessage "10M" false) true)
    (mkEvent false false 10 3 "onlineOnly" JNull).

(** The [server] part of [from_json]. *)
Definition read_server (hardware_concurrency : Z) (j : json) (s : Server)
  : result Server :=
  sv <- at_ j "server" ;;
  a <- value_string sv "address" (address s) ;;
  e <- value_string sv "endpoint" (endpoint s) ;;
  p <- value_uint16 sv "port" (port s) ;;
  o <- value_bool sv "allowOverrideConnection" (allowOverrideConnection s) ;;
  let nativeThreadsMax :=
    if hardware_concurrency =? 0 then 2 else hardware_concurrency in
  w <- value_uint32 sv "workers" nativeThreadsMax ;;
  t <- value_string sv "tmpDir" (tmpDir s) ;;
  wd <- (if has sv "watchdog" then
           en <- value_bool (index sv "watchdog") "enabled"
                            (watchdog_enabled (watchdog s)) ;;
           if en then
             l <- value_long (index sv "watchdog") "connectionLifetimeSeconds"
                             (connectionLifetimeSeconds (watchdog s)) ;;
             Ok (mkWatchdog en l)
           else Ok (mkWatchdog en (connectionLifetimeSeconds (watchdog s)))
         else Ok (watchdog s)) ;;
  Ok (mkServerSettings e a p w t o wd).

(** The [restApi] part. *)
Definition read_restApi (j : json) (r : RestApi) : result RestApi :=
  if has j "restApi" then
    on <- value_bool (index j "restApi") "enabled" (restApi_enabled r) ;;
    if on then
      ra <- at_ j "restApi" ;;
      en <- value_bool ra "enabled" (restApi_enabled r) ;;
      p <- value_uint16 ra "port" (restApi_port r) ;;
      a <- value_string ra "address" (restApi_address r) ;;
      au <- (if has ra "auth" then
               ty <- value_string (index ra "auth") "type" "noauth" ;;
               Ok (mkAuth ty (index ra "auth"))
             else Ok (auth r)) ;;
      Ok (mkRestApi en a p au)
    else Ok r
  else Ok r.

(** The [chat] part; the second component tells whether the line
    [Chat config not found] is printed. *)
Definition read_chat (j : json) (c : Chat) : result (Chat * bool) :=
  if has j "chat" then
    ch <- at_ j "chat" ;;
    ms <- value_string ch "maxSize" (maxSize (message c)) ;;
    ds <- value_bool ch "enableDeliveryStatus" (enableDeliveryStatus (message c)) ;;
    uq <- value_bool ch "enableUndeliveredQueue" (enableUndeliveredQueue c) ;;
    Ok (mkChat (mkChatMessage ms ds) uq, false)
  else Ok (c, true).

(** The [event] part. *)
Definition read_event (j : json) (e : EventSettings) : result EventSettings :=
  if has j "event" then
    ev <- at_ j "event" ;;
    en <- value_bool ev "enabled" (event_enabled e) ;;
    if en then
      rt <- value_bool ev "enableRetry" (enableRetry e) ;;
      ri <- value_int ev "retryIntervalSeconds" (retryIntervalSeconds e) ;;
      rc <- value_int ev "retryCount" (retryCount e) ;;
      ss <- value_string ev "sendStrategy" (sendStrategy e) ;;
      tg <- at_ ev "targets" ;;
      Ok (mkEvent en rt ri rc ss tg)
    else
      Ok (mkEvent en (enableRetry e) (retryIntervalSeconds e) (retryCount e)
                  (sendStrategy e) (targets e))
  else Ok e.

(** [from_json(j, in)]: the settings read from document [j] over the current
    value [in_], and whether [Chat config not found] was printed.  A thrown
    exception ends the reading. *)
Definition from_json (hardware_concurrency : Z) (j : json) (in_ : Settings)
  : result (Settings * bool) :=
  sv <- read_server hardware_concurrency j (server in_) ;;
  ra <- read_restApi j (restApi in_) ;;
  cb <- read_chat j (chat in_) ;;
  ev <- read_event j (event in_) ;;
  Ok (mkSettingsHpp sv ra cb.1 ev, cb.2).

End SettingsHpp.

(** ** A concrete instance, for running the model *)

Module Demo.

(** A toy codec: every non-empty string is a message of type [msg] from user
    10 to user 20 whose text is the string itself.  Every listener moves from
    the payload it is handed and leaves it empty. *)
Definition collaborators : Collaborators := {|
  parsePayload s :=
    mkPayload 10 [20] "msg" s (negb (String.eqb s ""))
              (if String.eqb s "" then "empty" else "");
  emptyPayload := mkPayload 0 [] "" "" false "empty";
  toJson p := p_text p;
  createSendStatus p := mkPayload 0 [p_sender p] TYPE_SENT_STATUS "" true "";
  humanReadableBytes z := pretty z +:+ " B";
  parseParamsString q := if String.eqb q "" then [] else [("id", q)];
  validateAuth _ _ := true;
  listenerLeaves _ _ := mkPayload 0 [] "" "" false ""
|}.

Definition conn (cid uid : Z) : Connection := mkConnection cid uid "" [].

(** A connection that asks for the user id [q]. *)
Definition asking (cid : Z) (q : string) : Connection := mkConnection cid 0 q [].

(** A server with no connection, a size limit of 4 bytes, one listener and
    the undelivered queue switched on. *)
Definition server0 : ChatServer :=
  mkServer 4 false (mkStorage ∅ ∅) ∅ ∅ ∅ 1 (mkSettings true false [] false) 100 [].

(** The same server with two listeners. *)
Definition listeners2 : ChatServer :=
  mkServer 4 false (mkStorage ∅ ∅) ∅ ∅ ∅ 2 (mkSettings true false [] false) 100 [].

(** The same with users 10 and 20 connected. *)
Definition server2 : ChatServer :=
  set_storage
    (fun _ => mkStorage {[ 10 := {[ 1 := Some (conn 1 10) ]};
                           20 := {[ 2 := Some (conn 2 20) ]} ]} ∅)
    server0.

Definition text_frame (s : string) : Message := mkMessage FLAG_FRAME_TEXT s.

End Demo.

(** ** Vocabulary of the statements *)

(** The frames of a list, received in order on one connection. *)
Definition feed {C : Collaborators} (connection : Connection)
  (frames : list Message) (st : ChatServer) : ChatServer :=
  fold_left (fun s m => onMessage connection m s) frames st.

(** The bodies of a list of fragments, one after the other. *)
Definition concat_all (chunks : list string) : string :=
  fold_right String.append "" chunks.

(** The events that routing a payload can add to the trace: a transport send
    with the callback of [sendTo], a listener call, or the close of an invalid
    payload. *)
Definition routed_event (e : Event) : Prop :=
  match e with
  | EvSend _ _ _ (CbSendTo _ _ _) => True
  | EvListener _ _ => True
  | EvSendClose _ STATUS_INVALID_MESSAGE_PAYLOAD _ => True
  | _ => False
  end.

(** [st'] has the trace of [st] followed by events that all satisfy [P]. *)
Definition trace_extends (P : Event -> Prop) (st st' : ChatServer) : Prop :=
  exists new, trace st' = trace st ++ new /\ Forall P new.

(** The reason text of the close for an oversize message. *)
Definition tooBigReason {C : Collaborators} (st : ChatServer) : string :=
  "Message to big. Maximum size: " +:+ humanReadableBytes (m_maxMessageSize st).

(** [st'] is [st] with other statistics, and nothing else changed. *)
Definition only_statistics (st st' : ChatServer) : Prop :=
  exists m, st' = set_statistics (fun _ => m) st.

(** The registry holds connection [c] of user [uid] under id [cid]. *)
Definition registered (uid : user_id_t) (cid : conn_id_t) (c : Connection)
  (st : ChatServer) : Prop :=
  cs_conns uid (m_connectionStorage st) !! cid = Some (Some c).

(** The user has a connection in the registry that is not null. *)
Definition has_live_connection (uid : user_id_t) (st : ChatServer) : Prop :=
  exists cid c, registered uid cid c st.

(** The queue of [recipient] replaced by [q]. *)
Definition with_queue (recipient : user_id_t) (q : list MessagePayload)
  (st : ChatServer) : ChatServer :=
  set_undelivered (insert recipient q) st.

(** The payloads of a list sent one after the other. *)
Definition send_all {C : Collaborators} (ms : list MessagePayload)
  (st : ChatServer) : ChatServer :=
  fold_left (fun s m => send m s) ms st.

(** What one turn of the watchdog does for one entry of the snapshot, as
    events: nothing for a null entry, the close of an idle connection, or the
    ping of a live one.  The idle time is read in state [st]. *)
Definition watchdog_event (lifetime : Z) (st : ChatServer) (uid : user_id_t)
  (conn : Z * option Connection) : list Event :=
  match conn.2 with
  | None => []
  | Some c =>
      let t := getInactiveTime (clock st) (statOf uid st) in
      if lifetime <=? t
      then [EvSendClose c STATUS_INACTIVE_CONNECTION (inactiveReason lifetime t)]
      else [EvSend c "." FLAG_PING (CbPing c)]
  end.

Definition watchdog_events (lifetime : Z) (st : ChatServer) : list Event :=
  flat_map (fun t => flat_map (watchdog_event lifetime st t.1) (map_to_list t.2))
           (map_to_list (cs_map (m_connectionStorage st))).

(** The clock and the statistics entries as [st] has them. *)
Definition same_idle_times (st s : ChatServer) : Prop :=
  clock s = clock st /\ forall u, statOf u s = statOf u st.

(** ** Further members of [ChatServer.cpp] *)

(** The [onMessage] lambda that both constructors install on the endpoint:
    a pong goes to [onPong], every other frame to [onMessage]. *)
Definition endpoint_onMessage {C : Collaborators} (connection : Connection)
  (message : Message) (st : ChatServer) : ChatServer :=
  if fin_rsv_opcode message =? FLAG_PONG then onPong connection st
  else onMessage connection message st.

(** Frames of several connections, received in order. *)
Definition receive {C : Collaborators} (frames : list (Connection * Message))
  (st : ChatServer) : ChatServer :=
  fold_left (fun s f => endpoint_onMessage f.1 f.2 s) frames st.

(** [config.address] as the constructors leave it for a [host] argument:
    the secure build takes a host of at least 7 characters, the plain build
    one of exactly 15; otherwise the address stays empty. *)
Definition constructor_address (useSSL : bool) (host : string) : string :=
  if useSSL
  then (if (7 <=? String.length host)%nat then host else "")
  else (if (String.length host =? 15)%nat then host else "").

(** The line that [runService] logs: protocol, host name and port. *)
Definition runService_banner (useSSL : bool) (address : string) (port : Z) : string :=
  let hostname := if negb (String.eqb address "") then address else "[any:address]" in
  let proto := if useSSL then "wss" else "ws" in
  "Started at " +:+ proto +:+ "://" +:+ hostname +:+ ":" +:+ pretty port.

(** The statics of [getThreadName]: the next index and the index given to
    each thread id so far. *)
Record ThreadNames := mkThreadNames {
  nextindex : Z;
  ids : gmap Z Z
}.

(** [getThreadName] for the calling thread [id]; [nextindex++] is on a
    [size_t] of 64 bits. *)
Definition getThreadName (id : Z) (tn : ThreadNames) : Z * ThreadNames :=
  match ids tn !! id with
  | Some i => (i, tn)
  | None =>
      (nextindex tn,
       mkThreadNames ((nextindex tn + 1) mod 2 ^ 64)
                     (<[id := nextindex tn]> (ids tn)))
  end.

(** The indices handed out so far are below [nextindex] and differ from
    thread to thread. *)
Definition thread_names_ok (tn : ThreadNames) : Prop :=
  0 <= nextindex tn
  /\ (forall id i, ids tn !! id = Some i -> 0 <= i < nextindex tn)
  /\ (forall id1 id2 i, ids tn !! id1 = Some i -> ids tn !! id2 = Some i -> id1 = id2).

(** The events of [sendTo] for the connections [conns] of a recipient: one
    transport send for each connection that is not null. *)
Definition sendTo_events {C : Collaborators} (recipient : user_id_t)
  (payload : MessagePayload) (conns : gmap Z (option Connection)) : list Event :=
  flat_map (fun e : Z * option Connection =>
              match e.2 with
              | Some c => [EvSend c (toJson payload) 129 (CbSendTo recipient payload e.1)]
              | None => []
              end)
           (map_to_list conns).

(** The calls of the given listeners, in order, on one payload object: the
    first is handed [payload], the next what the first left of it, and so
    on. *)
Fixpoint listener_calls {C : Collaborators} (payload : MessagePayload)
  (listeners : list nat) : list Event :=
  match listeners with
  | [] => []
  | i :: rest => EvListener i payload :: listener_calls (listenerLeaves i payload) rest
  end.

(** The events of [callOnMessageListeners]: one call for each listener, in
    the order of registration. *)
Definition listener_events {C : Collaborators} (payload : MessagePayload)
  (st : ChatServer) : list Event :=
  listener_calls payload (seq 0 (m_messageListeners st)).

(** The continuation frames of one connection, each preceded by frames of
    other connections. *)
Definition interleaved (c : Connection)
  (chunks : list (list (Connection * Message) * string))
  : list (Connection * Message) :=
  flat_map (fun nb => nb.1 ++ [(c, mkMessage FLAG_FRAGMENT_CONTINUE nb.2)]) chunks.

(** [st'] is [st] with another frame buffer, and nothing else changed. *)
Definition only_frameBuffer (st st' : ChatServer) : Prop :=
  exists fb, st' = set_frameBuffer (fun _ => fb) st.

(** The decimal digits of a list, as characters. *)
Definition digit_char (d : Z) : ascii := ascii_of_N (Z.to_N (48 + d)).

Fixpoint digits_string (ds : list Z) : string :=
  match ds with
  | [] => ""
  | d :: r => String (digit_char d) (digits_string r)
  end.

(** The number that a list of decimal digits writes. *)
Definition digits_value (ds : list Z) : Z :=
  fold_left (fun acc d => 10 * acc + d) ds 0.

(** A string that does not start with a decimal digit. *)
Definition no_leading_digit (s : string) : Prop :=
  match s with
  | String c _ => digit_of c = None
  | EmptyString => True
  end.

(** The state with its trace replaced. *)
Definition with_trace (t : list Event) (st : ChatServer) : ChatServer :=
  mkServer (m_maxMessageSize st) (m_enableMessageDeliveryStatus st)
           (m_connectionStorage st) (m_frameBuffer st)
           (m_undeliveredMessagesMap st) (m_statistics st)
           (m_messageListeners st) (settings st) (clock st) t.

(** [st'] differs from [st] in the registry and the trace at most. *)
Definition only_registry_and_trace (st st' : ChatServer) : Prop :=
  exists cs t, st' = with_trace t (set_storage (fun _ => cs) st).

(** A transport send of [payload] as [sendTo] issues it for [recipient]. *)
Definition transport_send_to {C : Collaborators} (payload : MessagePayload)
  (recipient : user_id_t) (e : Event) : Prop :=
  exists c cid, e = EvSend c (toJson payload) 129 (CbSendTo recipient payload cid).

(** A transport send of [payload] to one of its recipients other than 0. *)
Definition transport_send_of {C : Collaborators} (payload : MessagePayload)
  (e : Event) : Prop :=
  exists r, r ∈ getRecipients payload /\ r <> 0 /\ transport_send_to payload r e.

(** The accounting of a sender and of a recipient in [onMessageSent]. *)
Definition countSent (now bytes : Z) (s : Statistics) : Statistics :=
  addBytesTransferred bytes (addSendMessage now s).
Definition countReceived (now bytes : Z) (s : Statistics) : Statistics :=
  addBytesTransferred bytes (addReceivedMessage now s).

(** What keeps the loop of [redeliverMessagesTo] running for recipient [r]:
    the queue is enabled, [r] has no connection, and its queue is not empty
    and holds payloads addressed to [r] alone. *)
Definition requeues (r : user_id_t) (s : ChatServer) : Prop :=
  chat_enableUndeliveredQueue (settings s) = true
  /\ cs_size r (m_connectionStorage s) = 0%nat
  /\ queueOf r s <> []
  /\ Forall (fun m => getRecipients m = [r]) (queueOf r s).




(** * Properties *)

(** ** The model on concrete inputs *)

Example stoul_plain : stoul "42" = StoulValue 42.
Proof. reflexivity. Qed.

Example stoul_prefix : stoul " +12abc" = StoulValue 12.
Proof. reflexivity. Qed.

Example stoul_negative : stoul "-1" = StoulValue ULONG_MAX.
Proof. reflexivity. Qed.

Example stoul_no_digit : stoul "abc" = StoulInvalidArgument.
Proof. reflexivity. Qed.

Example stoul_too_large : stoul "99999999999999999999" = StoulOutOfRange.
Proof. reflexivity. Qed.

Example equalsIgnoreCase_typing : equalsIgnoreCase "Typing" "tYPING" = true.
Proof. reflexivity. Qed.

(** Three fragments [A], [B], [C] from user 10 reach user 20 as one message
    [ABC]. *)
Example fragmented_delivery :
  let p := mkPayload 10 [20] "msg" "ABC" true "" in
  trace (feed (C := Demo.collaborators) (Demo.conn 1 10)
              [mkMessage FLAG_FRAGMENT_BEGIN_TEXT "A";
               mkMessage FLAG_FRAGMENT_CONTINUE "B";
               mkMessage FLAG_FRAGMENT_END "C"] Demo.server2)
  = [EvListener 0 p; EvSend (Demo.conn 2 20) "ABC" 129 (CbSendTo 20 p 2)].
Proof. vm_compute. reflexivity. Qed.

(** Fragments that add up to more than the limit of 4 bytes close the
    connection of the sender. *)
Example fragmented_oversize :
  trace (feed (C := Demo.collaborators) (Demo.conn 1 10)
              [mkMessage FLAG_FRAGMENT_BEGIN_TEXT "AAA";
               mkMessage FLAG_FRAGMENT_END "BBB"] Demo.server2)
  = [EvSendClose (Demo.conn 1 10) STATUS_MESSAGE_TOO_BIG
                 "Message to big. Maximum size: 4 B"].
Proof. vm_compute. reflexivity. Qed.

(** An open request for user 20 with two queued messages: both are handed to
    the new connection in queue order. *)
Example reconnect_drains :
  let m1 := mkPayload 10 [20] "msg" "one" true "" in
  let m2 := mkPayload 10 [20] "msg" "two" true "" in
  let c := Demo.asking 5 "20" in
  let c20 := mkConnection 5 20 "20" [] in
  match onConnected (C := Demo.collaborators) 2 c
                    (with_queue 20 [m1; m2] Demo.server0) with
  | Some (Returned st) =>
      trace st = [EvListener 0 m1; EvSend c20 "one" 129 (CbSendTo 20 m1 5);
                  EvListener 0 m2; EvSend c20 "two" 129 (CbSendTo 20 m2 5)]
      /\ queueOf 20 st = []
  | _ => False
  end.
Proof. vm_compute. split; reflexivity. Qed.

(** With two listeners of which the first moves from its argument, the
    second is called with what the first left. *)
Example second_listener_gets_what_is_left :
  let p := mkPayload 10 [20] "msg" "hi" true "" in
  trace (callOnMessageListeners (C := Demo.collaborators) p Demo.listeners2)
  = [EvListener 0 p; EvListener 1 (mkPayload 0 [] "" "" false "")].
Proof. reflexivity. Qed.

(** The three keys that [from_json] reads in the [chat] object. *)
Example from_json_reads_chat :
  let doc :=
    SettingsHpp.JObj
      [("server", SettingsHpp.JObj []);
       ("chat", SettingsHpp.JObj
                  [("maxSize", SettingsHpp.JStr "1M");
                   ("enableDeliveryStatus", SettingsHpp.JBool true);
                   ("enableUndeliveredQueue", SettingsHpp.JBool false)])] in
  match SettingsHpp.from_json 4 doc SettingsHpp.defaults with
  | SettingsHpp.Ok (s, printed) =>
      SettingsHpp.chat s
      = SettingsHpp.mkChat (SettingsHpp.mkChatMessage "1M" true) false
      /\ printed = false
  | SettingsHpp.Throw _ => False
  end.
Proof. vm_compute. split; reflexivity. Qed.

(** A document without a [server] object makes [j.at("server")] throw. *)
Example from_json_needs_server :
  SettingsHpp.from_json 4 (SettingsHpp.JObj []) SettingsHpp.defaults
  = SettingsHpp.Throw "out_of_range.403".
Proof. reflexivity. Qed.

(** ** Invariants of the routing functions

    A property of the server state that survives the elementary steps of the
    routing functions survives the functions themselves. *)

Lemma fold_left_invariant {A B} (I : A -> Prop) (f : A -> B -> A) (l : list B) :
  (forall a b, In b l -> I a -> I (f a b)) ->
  forall a, I a -> I (fold_left f l a).
Proof.
  induction l as [|b l IH]; intros Hf a Ha; simpl; [exact Ha|].
  apply IH.
  - intros a' b' Hin. apply Hf. now right.
  - apply Hf; [now left | exact Ha].
Qed.

Section Stable.
Context {C : Collaborators}.
Variable I : ChatServer -> Prop.
Hypothesis I_emit : forall e st, routed_event e -> I st -> I (emit e st).
Hypothesis I_stats : forall f st, I st -> I (set_statistics f st).
Hypothesis I_undelivered : forall f st, I st -> I (set_undelivered f st).
Hypothesis I_remove_null :
  forall uid cid st0 st,
    I st0 ->
    cs_conns uid (m_connectionStorage st0) !! cid = Some None ->
    I st -> I (set_storage (cs_remove uid cid) st).

Lemma stable_getStat id st : I st -> I (getStat id st).
Proof. unfold getStat. destruct (m_statistics st !! id); auto. Qed.

Lemma stable_onStat id f st : I st -> I (onStat id f st).
Proof. intros. unfold onStat. apply I_stats, stable_getStat. assumption. Qed.

Lemma stable_enqueue p st : I st -> I (enqueueUndeliveredMessage p st).
Proof.
  unfold enqueueUndeliveredMessage. apply fold_left_invariant.
  intros a b _ Ha. unfold pushUndelivered. now apply I_undelivered.
Qed.

Lemma stable_handleUndeliverable uid p st : I st -> I (handleUndeliverable uid p st).
Proof.
  intros. unfold handleUndeliverable.
  destruct (negb _); [assumption | now apply stable_enqueue].
Qed.

Lemma stable_onMessageSent_unsent p n st : I st -> I (onMessageSent_unsent p n st).
Proof.
  intros H. unfold onMessageSent_unsent, onMessageSent_with.
  destruct (isTypeOfSentStatus p); [assumption|].
  rewrite andb_false_r.
  apply fold_left_invariant; [auto | now apply stable_onStat].
Qed.

Lemma stable_sendTo r p st : I st -> I (sendTo r p st).
Proof.
  intros H. unfold sendTo.
  destruct (Nat.eqb _ 0).
  - now apply stable_onMessageSent_unsent, stable_handleUndeliverable.
  - unfold cs_get. destruct (cs_map (m_connectionStorage st) !! r) as [m|] eqn:Em;
      [destruct (decide (m = ∅)) |]; try now apply stable_handleUndeliverable.
    apply fold_left_invariant; [|assumption].
    intros a [cid [c|]] Hin Ha; unfold sendTo_each; simpl.
    + now apply I_emit.
    + apply (I_remove_null r cid st); [assumption | | assumption].
      unfold cs_conns. rewrite Em. simpl.
      apply elem_of_map_to_list, list_elem_of_In. exact Hin.
Qed.

Lemma stable_listeners p st : I st -> I (callOnMessageListeners p st).
Proof.
  intros H. unfold callOnMessageListeners.
  apply (fold_left_invariant (fun sp => I (fst sp))); [|exact H].
  intros a b _ Ha. now apply I_emit.
Qed.

Lemma stable_send p st : I st -> I (send p st).
Proof.
  intros H. unfold send. destruct (isForBot p); [now apply stable_listeners|].
  apply fold_left_invariant; [|now apply stable_listeners].
  intros a uid _ Ha. destruct (uid =? 0); [assumption | now apply stable_sendTo].
Qed.

Lemma stable_route c p st : I st -> I (onMessage_route c p st).
Proof.
  intros H. unfold onMessage_route. destruct (negb (isValid p)).
  - now apply I_emit.
  - apply stable_send. destruct (chat_message_enableSendBack _); [|assumption].
    destruct (_ && _); [now apply stable_sendTo | assumption].
Qed.

End Stable.

(** ** Strings *)

Lemma append_assoc (a b c : string) : (a +:+ b) +:+ c = a +:+ (b +:+ c).
Proof.
  induction a as [|x a IH]; [reflexivity|].
  change (String x ((a +:+ b) +:+ c) = String x (a +:+ (b +:+ c))).
  now f_equal.
Qed.

Lemma append_empty_r (a : string) : a +:+ "" = a.
Proof.
  induction a as [|x a IH]; [reflexivity|].
  change (String x (a +:+ "") = String x a). now f_equal.
Qed.

(** ** The trace only grows *)

Lemma trace_extends_refl P st : trace_extends P st st.
Proof. exists []. split; [now rewrite app_nil_r | constructor]. Qed.

Lemma trace_extends_emit P e st0 st :
  P e -> trace_extends P st0 st -> trace_extends P st0 (emit e st).
Proof.
  intros He (new & Hn & Hall). exists (new ++ [e]). split.
  - simpl. rewrite Hn. now rewrite app_assoc.
  - apply Forall_app. split; [assumption | now constructor].
Qed.

Lemma route_trace {C : Collaborators} c p st :
  trace_extends routed_event st (onMessage_route c p st).
Proof.
  apply (stable_route (fun s => trace_extends routed_event st s)); auto.
  - intros e s He Hs. now apply trace_extends_emit.
  - apply trace_extends_refl.
Qed.

(** ** Frame buffer *)

Lemma hasFrameBuffer_None senderId st :
  m_frameBuffer st !! senderId = None -> hasFrameBuffer senderId st = false.
Proof.
  intros H. unfold hasFrameBuffer. rewrite H.
  apply bool_decide_eq_false. intros [x Hx]. discriminate.
Qed.

Lemma hasFrameBuffer_Some senderId st x :
  m_frameBuffer st !! senderId = Some x -> hasFrameBuffer senderId st = true.
Proof.
  intros H. unfold hasFrameBuffer. rewrite H.
  apply bool_decide_eq_true. now exists x.
Qed.

Lemma set_frameBuffer_id st : set_frameBuffer (fun m => m) st = st.
Proof. now destruct st. Qed.

Lemma erase_absent senderId st :
  m_frameBuffer st !! senderId = None ->
  set_frameBuffer (delete senderId) st = st.
Proof.
  intros H. destruct st; unfold set_frameBuffer; simpl in *.
  f_equal. now apply delete_id.
Qed.

(** Reading with [clear] returns what the sender has accumulated (nothing when
    there is no entry) and leaves the sender without an entry. *)
Lemma readFrameBuffer_clear senderId st :
  readFrameBuffer senderId true st =
  (default "" (m_frameBuffer st !! senderId),
   set_frameBuffer (delete senderId) st).
Proof.
  unfold readFrameBuffer.
  destruct (m_frameBuffer st !! senderId) as [x|] eqn:E.
  - now rewrite (hasFrameBuffer_Some _ _ _ E).
  - rewrite (hasFrameBuffer_None _ _ E). simpl. now rewrite erase_absent.
Qed.

(** After a clearing write the entry holds exactly the input. *)
Lemma writeFrameBuffer_clear senderId input st :
  m_frameBuffer (writeFrameBuffer senderId input true st) !! senderId = Some input.
Proof.
  unfold writeFrameBuffer.
  destruct (negb (hasFrameBuffer senderId st)); simpl;
    now rewrite lookup_alter_eq, lookup_insert_eq.
Qed.

(** An appending write on an existing entry appends. *)
Lemma writeFrameBuffer_append senderId input st x :
  m_frameBuffer st !! senderId = Some x ->
  m_frameBuffer (writeFrameBuffer senderId input false st) !! senderId
  = Some (x +:+ input).
Proof.
  intros H. unfold writeFrameBuffer.
  rewrite (hasFrameBuffer_Some _ _ _ H). simpl.
  now rewrite lookup_alter_eq, H.
Qed.

Lemma writeFrameBuffer_maxMessageSize senderId input clear st :
  m_maxMessageSize (writeFrameBuffer senderId input clear st) = m_maxMessageSize st.
Proof.
  unfold writeFrameBuffer.
  destruct (negb _); [reflexivity|]. now destruct clear.
Qed.

Section Receive.
Context {C : Collaborators}.

Lemma onMessage_continue connection bytes st :
  onMessage connection (mkMessage FLAG_FRAGMENT_CONTINUE bytes) st
  = writeFrameBuffer (getId connection) bytes false st.
Proof. reflexivity. Qed.

Lemma onMessage_begin (binary : bool) connection bytes st :
  onMessage connection
    (mkMessage (if binary then FLAG_FRAGMENT_BEGIN_BINARY
                else FLAG_FRAGMENT_BEGIN_TEXT) bytes) st
  = writeFrameBuffer (getId connection) bytes true st.
Proof. now destruct binary. Qed.

(** What [onMessage] does with a [FRAGMENT_END] frame, whatever the state. *)
Lemma onMessage_end connection bytes st :
  let st1 := set_frameBuffer (delete (getId connection)) st in
  let buffered :=
    default "" (m_frameBuffer st !! getId connection) +:+ bytes in
  onMessage connection (mkMessage FLAG_FRAGMENT_END bytes) st
  = if m_maxMessageSize st <? Z.of_nat (String.length buffered)
    then sendClose connection STATUS_MESSAGE_TOO_BIG (tooBigReason st) st1
    else onMessage_route connection (parsePayload buffered) st1.
Proof.
  unfold onMessage. simpl. now rewrite readFrameBuffer_clear.
Qed.

Lemma feed_cons connection m frames st :
  feed connection (m :: frames) st = feed connection frames (onMessage connection m st).
Proof. reflexivity. Qed.

Lemma feed_continue connection mids : forall st x,
  m_frameBuffer st !! getId connection = Some x ->
  m_frameBuffer (feed connection (map (mkMessage FLAG_FRAGMENT_CONTINUE) mids) st)
    !! getId connection = Some (x +:+ concat_all mids)
  /\ m_maxMessageSize (feed connection (map (mkMessage FLAG_FRAGMENT_CONTINUE) mids) st)
     = m_maxMessageSize st.
Proof.
  induction mids as [|b mids IH]; intros st x Hx.
  - split; [|reflexivity]. unfold feed, concat_all. simpl.
    now rewrite append_empty_r.
  - change (map (mkMessage FLAG_FRAGMENT_CONTINUE) (b :: mids))
      with (mkMessage FLAG_FRAGMENT_CONTINUE b
            :: map (mkMessage FLAG_FRAGMENT_CONTINUE) mids).
    rewrite feed_cons, onMessage_continue.
    destruct (IH (writeFrameBuffer (getId connection) b false st) (x +:+ b)
                 (writeFrameBuffer_append _ _ _ _ Hx)) as [H1 H2].
    split.
    + rewrite H1. change (concat_all (b :: mids)) with (b +:+ concat_all mids).
      now rewrite append_assoc.
    + rewrite H2. apply writeFrameBuffer_maxMessageSize.
Qed.

Lemma route_frameBuffer c p st :
  m_frameBuffer (onMessage_route c p st) = m_frameBuffer st.
Proof.
  now apply (stable_route (fun s => m_frameBuffer s = m_frameBuffer st)).
Qed.

End Receive.

(** ** The size limit of [onMessage] *)

(** C1, counterexample.  With a limit of 4 bytes, a single text frame of 11
    bytes is not closed with [MESSAGE_TOO_BIG]: [onMessage] parses it and
    routes it, here into the undelivered queue of its recipient. *)
Lemma oversize_text_frame_is_routed :
  let st' := onMessage (C := Demo.collaborators) (Demo.conn 1 10)
                       (Demo.text_frame "hello world") Demo.server0 in
  m_maxMessageSize Demo.server0 < Z.of_nat (String.length "hello world")
  /\ (forall c reason, ~ In (EvSendClose c STATUS_MESSAGE_TOO_BIG reason) (trace st'))
  /\ queueOf 20 st' = [parsePayload (Collaborators := Demo.collaborators) "hello world"].
Proof.
  split; [reflexivity|]. split; [|reflexivity].
  intros c reason H. vm_compute in H. destruct H as [H|[]]. discriminate.
Qed.

(** C1, as amended.  The size check of [onMessage] is on the reassembled
    bytes: at a [FRAGMENT_END] frame, when the buffered bytes followed by the
    bytes of the frame exceed [m_maxMessageSize], the connection is closed
    with [MESSAGE_TOO_BIG] and the reason that names the limit, the buffer
    entry of the sender is erased and nothing else happens (no parsing, no
    routing).  A single [TEXT] or [BINARY] frame is parsed and routed whatever
    its size, and routing never closes with [MESSAGE_TOO_BIG]. *)
Theorem size_limit_checked_on_reassembly {C : Collaborators}
  (connection : Connection) (message : Message) (st : ChatServer) :
  (fin_rsv_opcode message = FLAG_FRAGMENT_END ->
   m_maxMessageSize st
   < Z.of_nat (String.length
                 (default "" (m_frameBuffer st !! getId connection)
                  +:+ msg_string message)) ->
   onMessage connection message st
   = sendClose connection STATUS_MESSAGE_TOO_BIG (tooBigReason st)
               (set_frameBuffer (delete (getId connection)) st))
  /\ (fin_rsv_opcode message = FLAG_FRAME_TEXT
      \/ fin_rsv_opcode message = FLAG_FRAME_BINARY ->
      onMessage connection message st
      = onMessage_route connection (parsePayload (msg_string message)) st
      /\ exists new,
           trace (onMessage connection message st) = trace st ++ new
           /\ forall c reason,
                ~ In (EvSendClose c STATUS_MESSAGE_TOO_BIG reason) new).
Proof.
  destruct message as [opcode bytes]. simpl. split.
  - intros -> Hbig. rewrite onMessage_end.
    apply Z.ltb_lt in Hbig. cbv zeta. now rewrite Hbig.
  - intros Hop.
    assert (onMessage connection (mkMessage opcode bytes) st
            = onMessage_route connection (parsePayload bytes) st) as ->.
    { destruct Hop as [-> | ->]; reflexivity. }
    split; [reflexivity|].
    destruct (route_trace connection (parsePayload bytes) st) as (new & Hnew & Hall).
    exists new. split; [exact Hnew|].
    intros c reason Hin. rewrite Forall_forall in Hall.
    apply list_elem_of_In in Hin. exact (Hall _ Hin).
Qed.

Lemma size_limit_checked_on_reassembly_witness :
  let st := writeFrameBuffer 10 "hel" true Demo.server0 in
  onMessage (C := Demo.collaborators) (Demo.conn 1 10)
            (mkMessage FLAG_FRAGMENT_END "lo") st
  = sendClose (Demo.conn 1 10) STATUS_MESSAGE_TOO_BIG
              (tooBigReason (C := Demo.collaborators) st)
              (set_frameBuffer (delete 10) st)
  /\ onMessage (C := Demo.collaborators) (Demo.conn 1 10)
               (Demo.text_frame "hello world") Demo.server0
     = onMessage_route (C := Demo.collaborators) (Demo.conn 1 10)
                       (parsePayload (Collaborators := Demo.collaborators)
                                     "hello world") Demo.server0.
Proof.
  split.
  - apply (proj1 (size_limit_checked_on_reassembly
                    (C := Demo.collaborators) (Demo.conn 1 10)
                    (mkMessage FLAG_FRAGMENT_END "lo")
                    (writeFrameBuffer 10 "hel" true Demo.server0)));
      reflexivity.
  - apply (proj2 (size_limit_checked_on_reassembly
                    (C := Demo.collaborators) (Demo.conn 1 10)
                    (Demo.text_frame "hello world") Demo.server0)).
    left. reflexivity.
Defined.

(** ** Reassembly of fragments *)

(** C5.  A [FRAGMENT_BEGIN] frame (text or binary) with bytes [b0], then
    [FRAGMENT_CONTINUE] frames with bytes [mids], all on one connection: at
    the [FRAGMENT_END] frame with bytes [bn] the string that [onMessage]
    checks against the size limit and hands to the payload parser is
    [b0 ++ mids ++ bn] in arrival order, whatever the buffer held before, and
    afterwards the sender has no frame buffer entry. *)
Theorem fragments_reassembled {C : Collaborators}
  (binary : bool) (connection : Connection)
  (b0 : string) (mids : list string) (bn : string) (st : ChatServer) :
  let sender := getId connection in
  let begin_ :=
    mkMessage (if binary then FLAG_FRAGMENT_BEGIN_BINARY
               else FLAG_FRAGMENT_BEGIN_TEXT) b0 in
  let st1 :=
    feed connection (begin_ :: map (mkMessage FLAG_FRAGMENT_CONTINUE) mids) st in
  let assembled := b0 +:+ concat_all mids +:+ bn in
  let st2 := onMessage connection (mkMessage FLAG_FRAGMENT_END bn) st1 in
  st2 = (if m_maxMessageSize st <? Z.of_nat (String.length assembled)
         then sendClose connection STATUS_MESSAGE_TOO_BIG (tooBigReason st1)
                        (set_frameBuffer (delete sender) st1)
         else onMessage_route connection (parsePayload assembled)
                              (set_frameBuffer (delete sender) st1))
  /\ m_frameBuffer st2 !! sender = None.
Proof.
  intros sender begin_ st1 assembled st2.
  assert (m_frameBuffer st1 !! sender = Some (b0 +:+ concat_all mids)
          /\ m_maxMessageSize st1 = m_maxMessageSize st) as [Hbuf Hmax].
  { subst st1 begin_. rewrite feed_cons, onMessage_begin.
    destruct (feed_continue connection mids
                (writeFrameBuffer (getId connection) b0 true st) b0
                (writeFrameBuffer_clear _ _ _)) as [H1 H2].
    split; [exact H1|]. rewrite H2. apply writeFrameBuffer_maxMessageSize. }
  assert (st2 = (if m_maxMessageSize st <? Z.of_nat (String.length assembled)
         then sendClose connection STATUS_MESSAGE_TOO_BIG (tooBigReason st1)
                        (set_frameBuffer (delete sender) st1)
         else onMessage_route connection (parsePayload assembled)
                              (set_frameBuffer (delete sender) st1))) as Heq.
  { subst st2. rewrite onMessage_end. cbv zeta. fold sender.
    rewrite Hbuf, Hmax. simpl default. subst assembled.
    now rewrite append_assoc. }
  split; [exact Heq|]. rewrite Heq.
  destruct (_ <? _).
  - simpl. apply lookup_delete_eq.
  - rewrite route_frameBuffer. simpl. apply lookup_delete_eq.
Qed.

(** C9.  A sender without a frame buffer entry: [readFrameBuffer] returns the
    empty string and the state it was given (no entry is created), so at a
    [FRAGMENT_END] frame the bytes that [onMessage] checks against the size
    limit and hands to the payload parser are the bytes of that frame alone,
    in the state it was given. *)
Theorem readFrameBuffer_absent {C : Collaborators}
  (senderId : user_id_t) (clear : bool) (st : ChatServer) :
  m_frameBuffer st !! senderId = None ->
  readFrameBuffer senderId clear st = ("", st)
  /\ forall connection bytes,
       getId connection = senderId ->
       onMessage connection (mkMessage FLAG_FRAGMENT_END bytes) st
       = if m_maxMessageSize st <? Z.of_nat (String.length bytes)
         then sendClose connection STATUS_MESSAGE_TOO_BIG (tooBigReason st) st
         else onMessage_route connection (parsePayload bytes) st.
Proof.
  intros Hnone. split.
  - unfold readFrameBuffer. now rewrite (hasFrameBuffer_None _ _ Hnone).
  - intros connection bytes <-. rewrite onMessage_end. cbv zeta.
    rewrite Hnone, (erase_absent _ _ Hnone). reflexivity.
Qed.

Lemma readFrameBuffer_absent_witness :
  readFrameBuffer 10 true Demo.server0 = ("", Demo.server0)
  /\ onMessage (C := Demo.collaborators) (Demo.conn 1 10)
               (mkMessage FLAG_FRAGMENT_END "abc") Demo.server0
     = onMessage_route (C := Demo.collaborators) (Demo.conn 1 10)
         (parsePayload (Collaborators := Demo.collaborators) "abc") Demo.server0.
Proof.
  destruct (readFrameBuffer_absent (C := Demo.collaborators) 10 true Demo.server0
              eq_refl) as [H1 H2].
  split; [exact H1|]. exact (H2 (Demo.conn 1 10) "abc" eq_refl).
Defined.

(** ** Accounting *)

Lemma only_statistics_refl st : only_statistics st st.
Proof. exists (m_statistics st). now destruct st. Qed.

Lemma only_statistics_onStat id f st s :
  only_statistics st s -> only_statistics st (onStat id f s).
Proof.
  intros [m ->]. unfold onStat, getStat. simpl.
  destruct (m !! id); eexists; reflexivity.
Qed.

Section Accounting.
Context {C : Collaborators}.

Lemma onMessageSent_false p n st :
  onMessageSent p n false st = onMessageSent_unsent p n st.
Proof.
  unfold onMessageSent, onMessageSent_unsent, onMessageSent_with.
  destruct (isTypeOfSentStatus p); [reflexivity|].
  now rewrite andb_false_r.
Qed.

(** With [hasSent] false, [onMessageSent] touches the statistics only. *)
Lemma onMessageSent_unsent_only_statistics p n st :
  only_statistics st (onMessageSent_unsent p n st).
Proof.
  unfold onMessageSent_unsent, onMessageSent_with.
  destruct (isTypeOfSentStatus p); [apply only_statistics_refl|].
  rewrite andb_false_r.
  apply fold_left_invariant; [auto|].
  apply only_statistics_onStat, only_statistics_refl.
Qed.

(** [onMessageSent] with [hasSent] false, on a payload that is not a
    sent-status: the accounting of the sender and nothing else. *)
Lemma onMessageSent_unsent_eq p n st :
  isTypeOfSentStatus p = false ->
  onMessageSent_unsent p n st = onStat (getSender p) (countSent (clock st) n) st.
Proof.
  intros H. unfold onMessageSent_unsent, onMessageSent_with. rewrite H.
  rewrite andb_false_r.
  assert (forall l s, fold_left (fun (s : ChatServer) (_ : Z) => s) l s = s) as Hid.
  { induction l; intros; simpl; auto. }
  apply Hid.
Qed.

(** C8.  For a payload of the sent-status type [onMessageSent] returns the
    state it was given, whatever the byte count, the [hasSent] flag and the
    delivery-status setting: no statistics entry is created or changed and
    no delivery-status payload is built or routed. *)
Theorem onMessageSent_sent_status
  (payload : MessagePayload) (bytesTransferred : Z) (hasSent : bool)
  (st : ChatServer) :
  isTypeOfSentStatus payload = true ->
  onMessageSent payload bytesTransferred hasSent st = st.
Proof.
  intros H. unfold onMessageSent, onMessageSent_with. now rewrite H.
Qed.

End Accounting.

Lemma onMessageSent_sent_status_witness :
  let status := mkPayload 0 [10] TYPE_SENT_STATUS "" true "" in
  let st :=
    mkServer 4 true (mkStorage ∅ ∅) ∅ ∅ ∅ 1 (mkSettings true false [] false) 100 [] in
  onMessageSent (C := Demo.collaborators) status 7 true st = st.
Proof.
  apply (onMessageSent_sent_status (C := Demo.collaborators)). reflexivity.
Defined.

(** ** Closing a connection *)

Lemma cs_exists_absent uid cs :
  cs_map cs !! uid = None -> cs_exists uid cs = false.
Proof.
  intros H. unfold cs_exists, cs_size, cs_conns. rewrite H. simpl.
  now rewrite map_size_empty.
Qed.

Lemma statOf_onStat id f st :
  statOf id (onStat id f st) = f (statOf id st).
Proof.
  unfold statOf, onStat, getStat.
  destruct (m_statistics st !! id) as [x|] eqn:E; simpl.
  - now rewrite lookup_alter_eq, E.
  - now rewrite lookup_alter_eq, lookup_insert_eq.
Qed.

Lemma statOf_onStat_ne u id f st :
  u <> id -> statOf u (onStat id f st) = statOf u st.
Proof.
  intros Hne. unfold statOf, onStat, getStat.
  destruct (m_statistics st !! id) eqn:E; simpl.
  - now rewrite lookup_alter_ne by congruence.
  - rewrite lookup_alter_ne by congruence. now rewrite lookup_insert_ne by congruence.
Qed.

(** C10.  When the user id of the connection has no entry in the registry,
    [onDisconnected] returns the state it was given: no disconnection is
    counted and nothing is removed.  In any state, the count and the removal
    happen exactly when [exists] answers true for the user. *)
Theorem onDisconnected_unknown_user
  (connection : Connection) (status : Z) (reason : string) (st : ChatServer) :
  cs_map (m_connectionStorage st) !! getId connection = None ->
  onDisconnected connection status reason st = st
  /\ (forall st',
        cs_exists (getId connection) (m_connectionStorage st') = false ->
        onDisconnected connection status reason st' = st')
  /\ (forall st',
        cs_exists (getId connection) (m_connectionStorage st') = true ->
        let st'' := onDisconnected connection status reason st' in
        s_disconnections (statOf (getId connection) st'')
        = s_disconnections (statOf (getId connection) st') + 1
        /\ m_connectionStorage st''
           = cs_remove_conn connection (m_connectionStorage st')).
Proof.
  intros Hnone. split; [|split].
  - unfold onDisconnected. now rewrite (cs_exists_absent _ _ Hnone).
  - intros st' H. unfold onDisconnected. now rewrite H.
  - intros st' H. unfold onDisconnected. rewrite H. simpl. split.
    + change (statOf (getId connection)
                (set_storage (cs_remove_conn connection)
                   (onStat (getId connection) addDisconnection st')))
        with (statOf (getId connection)
                (onStat (getId connection) addDisconnection st')).
      now rewrite statOf_onStat.
    + destruct (m_statistics st' !! getId connection) eqn:E;
        unfold onStat, getStat; rewrite E; reflexivity.
Qed.

Lemma onDisconnected_unknown_user_witness :
  onDisconnected (Demo.conn 3 30) 1000 "bye" Demo.server2 = Demo.server2.
Proof.
  refine (proj1 (onDisconnected_unknown_user
                   (Demo.conn 3 30) 1000 "bye" Demo.server2 _)).
  reflexivity.
Defined.

(** ** Delivery to a recipient without a connection *)

Lemma handleUndeliverable_enabled uid p st :
  chat_enableUndeliveredQueue (settings st) = true ->
  handleUndeliverable uid p st
  = set_undelivered (insert uid (queueOf uid st ++ [setRecipient uid p])) st.
Proof. intros H. unfold handleUndeliverable. now rewrite H. Qed.

Lemma handleUndeliverable_disabled uid p st :
  chat_enableUndeliveredQueue (settings st) = false ->
  handleUndeliverable uid p st = st.
Proof. intros H. unfold handleUndeliverable. now rewrite H. Qed.

(** C4.  [sendTo] for a recipient without a connection in the registry is
    [handleUndeliverable] followed by [onMessageSent] on the single-recipient
    copy with [hasSent] false; nothing is handed to the transport (the trace
    and the registry are unchanged).  With the undelivered queue enabled, the
    map of queues afterwards is the one before with exactly one copy of the
    payload, its recipients set to the recipient alone, appended to the queue
    of the recipient; with the queue disabled the map of queues is unchanged.
    What [onMessageSent] records with [hasSent] false: unless the payload is a
    sent-status (then the statistics are untouched), the statistics entry of
    the sender named in the payload counts one more sent message, the length
    of the serialized payload as bytes transferred and the current time as
    its last activity; no message is counted as received, and the entry of
    every other user, the recipient included, is as before. *)
Theorem sendTo_offline_recipient {C : Collaborators}
  (uid : user_id_t) (payload : MessagePayload) (st : ChatServer) :
  cs_size uid (m_connectionStorage st) = 0%nat ->
  let st' := sendTo uid payload st in
  let size := Z.of_nat (String.length (toJson payload)) in
  st' = onMessageSent (setRecipient uid payload)
                      (Z.of_nat (String.length (toJson payload))) false
                      (handleUndeliverable uid payload st)
  /\ trace st' = trace st
  /\ m_connectionStorage st' = m_connectionStorage st
  /\ getRecipients (setRecipient uid payload) = [uid]
  /\ m_undeliveredMessagesMap st'
     = (if chat_enableUndeliveredQueue (settings st)
        then <[uid := queueOf uid st ++ [setRecipient uid payload]]>
               (m_undeliveredMessagesMap st)
        else m_undeliveredMessagesMap st)
  /\ m_statistics st'
     = m_statistics
         (if isTypeOfSentStatus payload then st
          else onStat (getSender payload)
                      (fun s => addBytesTransferred size (addSendMessage (clock st) s))
                      st)
  /\ (isTypeOfSentStatus payload = false ->
      let before := statOf (getSender payload) st in
      let after := statOf (getSender payload) st' in
      s_sent after = s_sent before + 1
      /\ s_bytes after = s_bytes before + size
      /\ s_lastActivity after = clock st
      /\ s_received after = s_received before
      /\ s_connections after = s_connections before
      /\ s_disconnections after = s_disconnections before
      /\ forall u, u <> getSender payload -> statOf u st' = statOf u st).
Proof.
  intros Hsize st' size.
  assert (st' = onMessageSent_unsent (setRecipient uid payload) size
                  (handleUndeliverable uid payload st)) as Hst'.
  { subst st' size. unfold sendTo. now rewrite Hsize. }
  split; [now rewrite onMessageSent_false|].
  destruct (onMessageSent_unsent_only_statistics (setRecipient uid payload) size
              (handleUndeliverable uid payload st)) as [m Hm].
  assert (m_statistics (handleUndeliverable uid payload st) = m_statistics st
          /\ clock (handleUndeliverable uid payload st) = clock st
          /\ forall u, statOf u (handleUndeliverable uid payload st) = statOf u st)
    as (Hstats & Hclock & Hstat).
  { unfold handleUndeliverable. destruct (negb _); repeat split. }
  assert (m_statistics st'
          = m_statistics
              (if isTypeOfSentStatus payload then st
               else onStat (getSender payload)
                           (fun s => addBytesTransferred size (addSendMessage (clock st) s))
                           st)) as Hacc.
  { rewrite Hst'. destruct (isTypeOfSentStatus payload) eqn:Hty.
    - unfold onMessageSent_unsent, onMessageSent_with.
      change (isTypeOfSentStatus (setRecipient uid payload))
        with (isTypeOfSentStatus payload).
      now rewrite Hty.
    - rewrite onMessageSent_unsent_eq by exact Hty.
      change (getSender (setRecipient uid payload)) with (getSender payload).
      rewrite Hclock. unfold onStat, getStat, countSent. rewrite Hstats.
      destruct (m_statistics st !! getSender payload); simpl; rewrite ?Hstats, ?Hclock;
        reflexivity. }
  assert (isTypeOfSentStatus payload = false ->
          statOf (getSender payload) st'
          = countSent (clock st) size (statOf (getSender payload) st)
          /\ forall u, u <> getSender payload -> statOf u st' = statOf u st)
    as Hsender.
  { intros Hty. rewrite Hst', onMessageSent_unsent_eq by exact Hty.
    change (getSender (setRecipient uid payload)) with (getSender payload).
    split.
    - now rewrite statOf_onStat, Hstat, Hclock.
    - intros u Hu. now rewrite statOf_onStat_ne, Hstat. }
  rewrite Hst' at 1 2 3. rewrite Hm. clear Hm.
  split; [|split; [|split; [reflexivity|split; [|split; [exact Hacc|]]]]].
  - unfold handleUndeliverable. now destruct (negb _).
  - unfold handleUndeliverable. now destruct (negb _).
  - destruct (chat_enableUndeliveredQueue (settings st)) eqn:Hq.
    + now rewrite (handleUndeliverable_enabled _ _ _ Hq).
    + now rewrite (handleUndeliverable_disabled _ _ _ Hq).
  - intros Hty before after. destruct (Hsender Hty) as [Hs Ho].
    subst before after. rewrite Hs. repeat split. exact Ho.
Qed.

Lemma sendTo_offline_recipient_witness :
  let p := mkPayload 10 [20; 30] "msg" "hi" true "" in
  let st' := sendTo (C := Demo.collaborators) 20 p Demo.server0 in
  trace st' = trace Demo.server0
  /\ queueOf 20 st' = [mkPayload 10 [20] "msg" "hi" true ""]
  /\ queueOf 30 st' = []
  /\ s_sent (statOf 10 st') = s_sent (statOf 10 Demo.server0) + 1
  /\ s_bytes (statOf 10 st') = s_bytes (statOf 10 Demo.server0) + 2
  /\ statOf 20 st' = statOf 20 Demo.server0.
Proof.
  pose proof (sendTo_offline_recipient (C := Demo.collaborators) 20
                (mkPayload 10 [20; 30] "msg" "hi" true "") Demo.server0 eq_refl)
    as (_ & Htrace & _ & _ & Hqueue & _ & Hstat).
  destruct (Hstat eq_refl) as (Hsent & Hbytes & _ & _ & _ & _ & Hother).
  split; [exact Htrace|]. unfold queueOf. rewrite Hqueue.
  split; [reflexivity|]. split; [reflexivity|].
  split; [exact Hsent|]. split; [exact Hbytes|].
  apply Hother. discriminate.
Defined.

(** ** Redelivery *)

Lemma fold_left_commute {A B} (I : A -> Prop) (T : A -> A) (f : A -> B -> A)
  (l : list B) :
  (forall a b, In b l -> I a -> I (f a b) /\ f (T a) b = T (f a b)) ->
  forall a, I a -> fold_left f l (T a) = T (fold_left f l a).
Proof.
  induction l as [|b l IH]; intros Hf a Ha; simpl; [reflexivity|].
  destruct (Hf a b (or_introl eq_refl) Ha) as [Hi ->].
  apply IH; [|exact Hi]. intros a' b' Hin. apply Hf. now right.
Qed.

Lemma cs_size_registered uid cid c st :
  registered uid cid c st -> cs_size uid (m_connectionStorage st) <> 0%nat.
Proof.
  unfold registered, cs_size. intros H Hz.
  apply map_size_empty_inv in Hz. rewrite Hz in H. now rewrite lookup_empty in H.
Qed.

Lemma cs_get_nonempty uid cs :
  cs_size uid cs <> 0%nat -> cs_get uid cs = Some (cs_conns uid cs).
Proof.
  unfold cs_size, cs_get, cs_conns. intros H.
  destruct (cs_map cs !! uid) as [m|]; simpl in *.
  - destruct (decide (m = ∅)) as [->|]; [|reflexivity].
    now rewrite map_size_empty in H.
  - now rewrite map_size_empty in H.
Qed.

(** Removing a null entry leaves a registered connection registered. *)
Lemma registered_remove_null r cid0 c0 uid cid st0 st :
  registered r cid0 c0 st0 ->
  cs_conns uid (m_connectionStorage st0) !! cid = Some None ->
  registered r cid0 c0 st ->
  registered r cid0 c0 (set_storage (cs_remove uid cid) st).
Proof.
  unfold registered. intros H0 Hnull H. simpl.
  unfold cs_remove, cs_conns in *.
  destruct (cs_map (m_connectionStorage st) !! uid) as [m|] eqn:Em; [|exact H].
  destruct (decide (uid = r)) as [->|Hne].
  - assert (cid <> cid0) as Hc by (intros ->; congruence).
    rewrite Em in H. simpl in H.
    destruct (decide (delete cid m = ∅)) as [He|_]; simpl.
    + exfalso. assert (delete cid m !! cid0 = Some (Some c0)) as Hl
        by now rewrite lookup_delete_ne.
      rewrite He in Hl. now rewrite lookup_empty in Hl.
    + rewrite lookup_insert_eq. simpl. now rewrite lookup_delete_ne.
  - destruct (decide (delete cid m = ∅)); simpl.
    + now rewrite lookup_delete_ne.
    + now rewrite lookup_insert_ne.
Qed.

Section Redelivery.
Context {C : Collaborators}.
Variables (r : user_id_t) (cid0 : conn_id_t) (c0 : Connection).
Variable q : list MessagePayload.

Local Abbreviation live := (registered r cid0 c0).
Local Abbreviation T := (with_queue r q).

Lemma live_send p st : live st -> live (send p st).
Proof.
  apply (stable_send (fun s => live s)); auto.
  intros uid cid st0 s. apply registered_remove_null.
Qed.

Lemma live_sendTo uid p st : live st -> live (sendTo uid p st).
Proof.
  apply (stable_sendTo (fun s => live s)); auto.
  intros u cid st0 s. apply registered_remove_null.
Qed.

Lemma commute_getStat id st : getStat id (T st) = T (getStat id st).
Proof. unfold getStat. simpl. now destruct (m_statistics st !! id). Qed.

Lemma commute_onStat id f st : onStat id f (T st) = T (onStat id f st).
Proof. unfold onStat. now rewrite commute_getStat. Qed.

Lemma commute_unsent p n st :
  onMessageSent_unsent p n (T st) = T (onMessageSent_unsent p n st).
Proof.
  unfold onMessageSent_unsent, onMessageSent_with.
  destruct (isTypeOfSentStatus p); [reflexivity|].
  rewrite !andb_false_r, commute_onStat. simpl clock.
  apply (fold_left_commute (fun _ => True)); auto.
Qed.

Lemma commute_push p uid st :
  uid <> r -> pushUndelivered p uid (T st) = T (pushUndelivered p uid st).
Proof.
  intros Hne. unfold pushUndelivered, with_queue, queueOf.
  destruct st; unfold set_undelivered; simpl. f_equal.
  rewrite lookup_insert_ne by congruence.
  apply insert_insert_ne. congruence.
Qed.

Lemma commute_handleUndeliverable uid p st :
  uid <> r -> handleUndeliverable uid p (T st) = T (handleUndeliverable uid p st).
Proof.
  intros Hne. unfold handleUndeliverable. simpl settings.
  destruct (negb _); [reflexivity|].
  unfold enqueueUndeliveredMessage. simpl. now apply commute_push.
Qed.

Lemma commute_sendTo uid p st :
  live st -> sendTo uid p (T st) = T (sendTo uid p st).
Proof.
  intros Hl. unfold sendTo. simpl m_connectionStorage.
  destruct (Nat.eqb _ 0) eqn:Hs.
  - apply Nat.eqb_eq in Hs.
    assert (uid <> r) as Hne.
    { intros ->. now apply (cs_size_registered _ _ _ _ Hl). }
    now rewrite commute_handleUndeliverable, commute_unsent.
  - apply Nat.eqb_neq in Hs. rewrite (cs_get_nonempty _ _ Hs).
    apply (fold_left_commute (fun _ => True)); [|exact I].
    intros a [cid [c|]] _ _; split; auto.
Qed.

Lemma commute_listeners p st :
  callOnMessageListeners p (T st) = T (callOnMessageListeners p st).
Proof.
  unfold callOnMessageListeners. simpl m_messageListeners.
  pose proof (fold_left_commute (fun _ => True)
                (fun sp => (T (fst sp), snd sp)) callListener
                (seq 0 (m_messageListeners st))) as H.
  exact (f_equal fst (H (fun _ _ _ _ => conj Logic.I eq_refl) (st, p) Logic.I)).
Qed.

Lemma live_listeners p st : live st -> live (callOnMessageListeners p st).
Proof.
  apply (stable_listeners (fun s => live s)). auto.
Qed.

Lemma commute_send p st : live st -> send p (T st) = T (send p st).
Proof.
  intros Hl. unfold send. destruct (isForBot p); [apply commute_listeners|].
  rewrite commute_listeners.
  apply (fold_left_commute (fun s => live s)); [|now apply live_listeners].
  intros a uid _ Ha. destruct (uid =? 0); [now split|].
  split; [now apply live_sendTo | now apply commute_sendTo].
Qed.

Lemma commute_send_all ms : forall st,
  live st -> send_all ms (T st) = T (send_all ms st) /\ live (send_all ms st).
Proof.
  induction ms as [|p ms IH]; intros st Hl; [now split|].
  unfold send_all. simpl. fold (send_all ms (send p (T st))).
  fold (send_all ms (send p st)).
  rewrite (commute_send p st Hl). apply IH. now apply live_send.
Qed.

End Redelivery.

Lemma with_queue_twice r q q' st :
  with_queue r q (with_queue r q' st) = with_queue r q st.
Proof.
  unfold with_queue. destruct st; unfold set_undelivered; simpl. f_equal.
  apply insert_insert_eq.
Qed.

Lemma with_queue_same r q st :
  m_undeliveredMessagesMap st !! r = Some q -> with_queue r q st = st.
Proof.
  intros H. unfold with_queue. destruct st; unfold set_undelivered; simpl in *.
  f_equal. now apply insert_id.
Qed.

Lemma queueOf_with_queue r q st : queueOf r (with_queue r q st) = q.
Proof. unfold queueOf, with_queue. simpl. now rewrite lookup_insert_eq. Qed.

Section Drain.
Context {C : Collaborators}.

(** The loop on a queue [ms] of a recipient with a registered connection:
    as many turns as payloads, each payload sent in queue order. *)
Lemma redeliver_loop_drains r cid0 c0 ms : forall fuel cnt st,
  registered r cid0 c0 st ->
  m_undeliveredMessagesMap st !! r = Some ms ->
  (length ms <= fuel)%nat ->
  redeliver_loop fuel r cnt st
  = Some (cnt + Z.of_nat (length ms), with_queue r [] (send_all ms st)).
Proof.
  induction ms as [|p rest IH]; intros fuel cnt st Hl Hq Hfuel.
  - assert (queueOf r st = []) as Hq' by (unfold queueOf; now rewrite Hq).
    destruct fuel; simpl; rewrite Hq'; simpl;
      rewrite Z.add_0_r; unfold send_all; simpl;
      now rewrite (with_queue_same _ _ _ Hq).
  - assert (queueOf r st = p :: rest) as Hq' by (unfold queueOf; now rewrite Hq).
    destruct fuel as [|fuel]; [simpl in Hfuel; lia|].
    simpl. rewrite Hq'.
    change (set_undelivered (insert r rest) st) with (with_queue r rest st).
    rewrite (commute_send r cid0 c0 rest p st Hl).
    rewrite (IH fuel (cnt + 1) (with_queue r rest (send p st))).
    + f_equal. f_equal; [simpl length; lia|].
      destruct (commute_send_all r cid0 c0 rest rest (send p st)
                  (live_send r cid0 c0 p st Hl)) as [-> _].
      now rewrite with_queue_twice.
    + now apply (live_send r cid0 c0 p st).
    + simpl. apply lookup_insert_eq.
    + simpl in Hfuel. lia.
Qed.

(** A call of [redeliverMessagesTo] for a recipient with a registered
    connection runs to the end within as many turns as the queue is long. *)
Lemma redeliverMessagesTo_live
  (fuel : nat) (recipientId : user_id_t) (st : ChatServer) :
  chat_enableUndeliveredQueue (settings st) = true ->
  has_live_connection recipientId st ->
  (length (queueOf recipientId st) <= fuel)%nat ->
  redeliverMessagesTo fuel recipientId st
  = Some (Z.of_nat (length (queueOf recipientId st)),
          with_queue recipientId [] (send_all (queueOf recipientId st) st)).
Proof.
  intros Hen (cid0 & c0 & Hl) Hfuel.
  unfold redeliverMessagesTo, hasUndeliveredMessages. rewrite Hen. simpl negb.
  fold (with_queue recipientId (queueOf recipientId st) st).
  destruct (queueOf recipientId st) as [|p rest] eqn:Ems; [reflexivity|].
  simpl negb. cbv iota.
  rewrite (redeliver_loop_drains recipientId cid0 c0 (p :: rest));
    [| exact Hl | apply lookup_insert_eq | exact Hfuel].
  f_equal. f_equal.
  destruct (commute_send_all recipientId cid0 c0 (p :: rest) (p :: rest) st Hl)
    as [-> _].
  now rewrite with_queue_twice.
Qed.

(** C6.  With the undelivered queue enabled and a connection of the
    recipient in the registry (as the open handler has just put one), a call
    of [redeliverMessagesTo] with the queue [m1..mk] ends, for any bound of at
    least [k] turns: it returns [k], and the state is the one reached by
    sending [m1], ..., [mk] in that order from the initial state, with the
    queue of the recipient empty.  With the feature disabled the call returns
    0 and the state it was given; with an empty queue it returns 0 and adds
    nothing to the trace. *)
Theorem redeliverMessagesTo_drains
  (fuel : nat) (recipientId : user_id_t) (st : ChatServer) :
  chat_enableUndeliveredQueue (settings st) = true ->
  has_live_connection recipientId st ->
  (length (queueOf recipientId st) <= fuel)%nat ->
  let ms := queueOf recipientId st in
  let st' := with_queue recipientId [] (send_all ms st) in
  redeliverMessagesTo fuel recipientId st = Some (Z.of_nat (length ms), st')
  /\ queueOf recipientId st' = []
  /\ (forall f s,
        chat_enableUndeliveredQueue (settings s) = false ->
        redeliverMessagesTo f recipientId s = Some (0, s))
  /\ (forall f s,
        queueOf recipientId s = [] ->
        exists s', redeliverMessagesTo f recipientId s = Some (0, s')
                   /\ trace s' = trace s /\ queueOf recipientId s' = []).
Proof.
  intros Hen Hlive Hfuel ms st'. split; [|split; [|split]].
  - now apply redeliverMessagesTo_live.
  - apply queueOf_with_queue.
  - intros f s Hs. unfold redeliverMessagesTo. now rewrite Hs.
  - intros f s Hs. unfold redeliverMessagesTo, hasUndeliveredMessages.
    destruct (chat_enableUndeliveredQueue (settings s)); simpl.
    + rewrite Hs. simpl. eexists. split; [reflexivity|]. split; [reflexivity|].
      fold (with_queue recipientId [] s). apply queueOf_with_queue.
    + exists s. auto.
Qed.

End Drain.

Lemma redeliverMessagesTo_drains_witness :
  let m1 := mkPayload 10 [20] "msg" "one" true "" in
  let m2 := mkPayload 10 [20] "msg" "two" true "" in
  let st := with_queue 20 [m1; m2] Demo.server2 in
  exists st',
    redeliverMessagesTo (C := Demo.collaborators) 2 20 st = Some (2, st')
    /\ queueOf 20 st' = []
    /\ trace st'
       = [EvListener 0 m1; EvSend (Demo.conn 2 20) "one" 129 (CbSendTo 20 m1 2);
          EvListener 0 m2; EvSend (Demo.conn 2 20) "two" 129 (CbSendTo 20 m2 2)].
Proof.
  intros m1 m2 st.
  pose proof (redeliverMessagesTo_drains (C := Demo.collaborators) 2 20 st
                eq_refl
                (ex_intro _ 2 (ex_intro _ (Demo.conn 2 20) eq_refl))
                (le_n 2)) as (Hrun & Hempty & _).
  eexists. split; [exact Hrun|]. split; [exact Hempty | reflexivity].
Defined.

(** ** Opening a connection *)

Lemma storage_add_registered id connection st :
  registered id (getUniqueId connection)
    (mkConnection (getUniqueId connection) id
                  (queryString connection) (header connection))
    (storage_add id connection st).
Proof.
  unfold registered, storage_add, cs_conns. simpl.
  destruct (server_allowOverrideConnection (settings st)); simpl;
    rewrite lookup_insert_eq; simpl; apply lookup_insert_eq.
Qed.

Lemma storage_add_queue id connection st :
  m_undeliveredMessagesMap (storage_add id connection st)
  = m_undeliveredMessagesMap st
  /\ settings (storage_add id connection st) = settings st.
Proof.
  unfold storage_add.
  destruct (server_allowOverrideConnection (settings st)); [|now split].
  simpl.
  apply (fold_left_invariant
           (fun s => m_undeliveredMessagesMap s = m_undeliveredMessagesMap st
                     /\ settings s = settings st)); [|now split].
  intros a [cid [c|]] _ Ha; exact Ha.
Qed.

Lemma onStat_frame id f st :
  m_undeliveredMessagesMap (onStat id f st) = m_undeliveredMessagesMap st
  /\ settings (onStat id f st) = settings st
  /\ m_connectionStorage (onStat id f st) = m_connectionStorage st.
Proof.
  destruct (only_statistics_onStat id f st st (only_statistics_refl st)) as [m ->].
  now repeat split.
Qed.

Section Open.
Context {C : Collaborators}.

(** The open handler on a request that passes the checks and whose [id]
    reads as [id]: the connection is registered, counted, and the queue of the
    user is drained in order. *)
Lemma onConnected_drains fuel connection id st :
  let params := parseParamsString (queryString connection) in
  validateAuth params (header connection) = true ->
  hasParam "id" params = true ->
  getParam "id" params <> "" ->
  stoul (getParam "id" params) = StoulValue id ->
  chat_enableUndeliveredQueue (settings st) = true ->
  (length (queueOf id st) <= fuel)%nat ->
  onConnected fuel connection st
  = Some (Returned
            (with_queue id []
               (send_all (queueOf id st)
                  (onStat id addConnection (storage_add id connection st))))).
Proof.
  intros params Hauth Hhas Hne Hid Hen Hfuel.
  destruct (storage_add_queue id connection st) as [Hq Hs].
  set (st2 := onStat id addConnection (storage_add id connection st)).
  destruct (onStat_frame id addConnection (storage_add id connection st))
    as (Fq & Fs & Fc).
  assert (queueOf id st2 = queueOf id st) as Hq2.
  { unfold queueOf, st2. now rewrite Fq, Hq. }
  assert (settings st2 = settings st) as Hs2.
  { unfold st2. now rewrite Fs. }
  assert (has_live_connection id st2) as Hlive.
  { exists (getUniqueId connection). eexists.
    unfold st2, registered. rewrite Fc.
    apply (storage_add_registered id connection st). }
  assert (redeliverMessagesTo fuel id st2
          = Some (Z.of_nat (length (queueOf id st2)),
                  with_queue id [] (send_all (queueOf id st2) st2))) as Hrun.
  { apply redeliverMessagesTo_live;
      [now rewrite Hs2 | exact Hlive | now rewrite Hq2]. }
  unfold onConnected. fold params. rewrite Hauth, Hhas. simpl negb.
  destruct (length params) eqn:Hlen.
  { destruct params; [discriminate | discriminate]. }
  simpl Nat.eqb. cbv iota.
  destruct (String.eqb (getParam "id" params) "") eqn:He.
  { apply String.eqb_eq in He. contradiction. }
  simpl orb. cbv iota. rewrite Hid. fold st2. rewrite Hrun. now rewrite Hq2.
Qed.

(** An [id] that [std::stoul] rejects with [std::invalid_argument]: the
    connection is closed with [INVALID_QUERY_PARAMS] and a reason that quotes
    the parameter; nothing else changes, so nothing is registered. *)
Lemma onConnected_invalid_argument fuel connection st :
  let params := parseParamsString (queryString connection) in
  validateAuth params (header connection) = true ->
  hasParam "id" params = true ->
  getParam "id" params <> "" ->
  stoul (getParam "id" params) = StoulInvalidArgument ->
  onConnected fuel connection st
  = Some (Returned
            (sendClose connection STATUS_INVALID_QUERY_PARAMS
               ("Passed invalid id: id=" +:+ getParam "id" params
                +:+ ". " +:+ "stoul") st)).
Proof.
  intros params Hauth Hhas Hne Hid.
  unfold onConnected. fold params. rewrite Hauth, Hhas. simpl negb.
  destruct (length params) eqn:Hlen.
  { destruct params; discriminate. }
  simpl Nat.eqb. cbv iota.
  destruct (String.eqb (getParam "id" params) "") eqn:He.
  { apply String.eqb_eq in He. contradiction. }
  simpl orb. cbv iota. now rewrite Hid.
Qed.

(** An [id] that [std::stoul] rejects with [std::out_of_range]: no handler
    catches it; the exception leaves [onConnected] with the state untouched,
    so no close is sent. *)
Lemma onConnected_out_of_range fuel connection st :
  let params := parseParamsString (queryString connection) in
  validateAuth params (header connection) = true ->
  hasParam "id" params = true ->
  getParam "id" params <> "" ->
  stoul (getParam "id" params) = StoulOutOfRange ->
  onConnected fuel connection st = Some (Thrown "std::out_of_range" st).
Proof.
  intros params Hauth Hhas Hne Hid.
  unfold onConnected. fold params. rewrite Hauth, Hhas. simpl negb.
  destruct (length params) eqn:Hlen.
  { destruct params; discriminate. }
  simpl Nat.eqb. cbv iota.
  destruct (String.eqb (getParam "id" params) "") eqn:He.
  { apply String.eqb_eq in He. contradiction. }
  simpl orb. cbv iota. now rewrite Hid.
Qed.

End Open.

(** C2, the code at the failing input.  The decimal string of [2^64] is
    present, non-empty and not a user id; [std::stoul] rejects it with
    [std::out_of_range], and [onConnected] ends by that exception: the trace
    stays empty, so the connection is not closed with [INVALID_QUERY_PARAMS]
    (it is not registered either). *)
Lemma onConnected_id_2_64_throws :
  stoul "18446744073709551616" = StoulOutOfRange
  /\ stoul "18446744073709551615" = StoulValue ULONG_MAX
  /\ forall fuel,
       onConnected (C := Demo.collaborators) fuel
                   (Demo.asking 7 "18446744073709551616") Demo.server0
       = Some (Thrown "std::out_of_range" Demo.server0).
Proof.
  split; [reflexivity|]. split; [reflexivity|]. intros fuel.
  apply (onConnected_out_of_range (C := Demo.collaborators));
    [reflexivity | reflexivity | discriminate | reflexivity].
Qed.

(** ** The configuration reader *)

Section Reader.
Import SettingsHpp.

(** [from_json] reads three keys of the [chat] object and no other: a member
    under any other key leaves the result as it is. *)
Lemma from_json_ignores_chat_key hw k v members rest s :
  k <> "maxSize" -> k <> "enableDeliveryStatus" -> k <> "enableUndeliveredQueue" ->
  from_json hw (JObj (("chat", JObj ((k, v) :: members)) :: rest)) s
  = from_json hw (JObj (("chat", JObj members) :: rest)) s.
Proof.
  intros H1 H2 H3.
  apply String.eqb_neq in H1, H2, H3.
  assert (read_chat (JObj (("chat", JObj ((k, v) :: members)) :: rest)) (chat s)
          = read_chat (JObj (("chat", JObj members) :: rest)) (chat s)) as Hchat.
  { unfold read_chat, has, at_, value_string, value_bool, value, bind.
    cbn [assoc String.eqb Ascii.eqb Bool.eqb].
    now rewrite H1, H2, H3. }
  unfold from_json. rewrite Hchat. reflexivity.
Qed.




End Reader.

(** ** Watchdog *)

Lemma fold_left_trace {B} (J : ChatServer -> Prop)
  (f : ChatServer -> B -> ChatServer) (ev : B -> list Event) (l : list B) :
  (forall s b, In b l -> J s -> J (f s b) /\ trace (f s b) = trace s ++ ev b) ->
  forall s, J s ->
    J (fold_left f l s) /\ trace (fold_left f l s) = trace s ++ flat_map ev l.
Proof.
  induction l as [|b l IH]; intros Hf s Hs; simpl.
  - split; [exact Hs | now rewrite app_nil_r].
  - destruct (Hf s b (or_introl eq_refl) Hs) as [Hj Ht].
    destruct (IH (fun s' b' Hin => Hf s' b' (or_intror Hin)) _ Hj) as [Hj' Ht'].
    split; [exact Hj'|]. rewrite Ht', Ht. now rewrite app_assoc.
Qed.

Lemma statOf_getStat u id s : statOf u (getStat id s) = statOf u s.
Proof.
  unfold statOf, getStat.
  destruct (m_statistics s !! id) eqn:E; [reflexivity|]. simpl.
  destruct (decide (id = u)) as [->|Hne].
  - now rewrite lookup_insert_eq, E.
  - now rewrite lookup_insert_ne.
Qed.

Lemma same_idle_times_getStat st id s :
  same_idle_times st s -> same_idle_times st (getStat id s).
Proof.
  intros [Hc Hs]. split.
  - rewrite <- Hc. unfold getStat. now destruct (m_statistics s !! id).
  - intros u. now rewrite statOf_getStat.
Qed.

Section Watchdog.
Context {C : Collaborators}.

Lemma watchdog_conn_trace lifetime st uid s conn :
  same_idle_times st s ->
  same_idle_times st (watchdog_conn lifetime uid s conn)
  /\ trace (watchdog_conn lifetime uid s conn)
     = trace s ++ watchdog_event lifetime st uid conn.
Proof.
  intros [Hc Hs]. unfold watchdog_conn, watchdog_event.
  destruct conn as [cid [c|]]; simpl.
  - rewrite Hc, Hs.
    destruct (lifetime <=? getInactiveTime (clock st) (statOf uid st));
      (split; [now split | reflexivity]).
  - split; [now split | now rewrite app_nil_r].
Qed.

Lemma watchdog_user_trace lifetime st s t :
  same_idle_times st s ->
  same_idle_times st (watchdog_user lifetime s t)
  /\ trace (watchdog_user lifetime s t)
     = trace s ++ flat_map (watchdog_event lifetime st t.1) (map_to_list t.2).
Proof.
  intros H. unfold watchdog_user.
  destruct (fold_left_trace (same_idle_times st)
              (watchdog_conn lifetime t.1)
              (watchdog_event lifetime st t.1) (map_to_list t.2)
              (fun s' b _ Hs' => watchdog_conn_trace lifetime st t.1 s' b Hs')
              (getStat t.1 s) (same_idle_times_getStat _ _ _ H)) as [Hj Ht].
  split; [exact Hj|]. rewrite Ht. f_equal.
  unfold getStat. now destruct (m_statistics s !! t.1).
Qed.

(** The first half of a turn adds to the trace, for every entry of the
    snapshot in the order of the loops, the event of that entry. *)
Lemma watchdog_scan_trace lifetime st :
  trace (watchdog_scan lifetime st) = trace st ++ watchdog_events lifetime st.
Proof.
  unfold watchdog_scan, watchdog_events.
  apply (fold_left_trace (same_idle_times st) (watchdog_user lifetime)
           (fun t => flat_map (watchdog_event lifetime st t.1) (map_to_list t.2))).
  - intros s t _ Hs. now apply watchdog_user_trace.
  - now split.
Qed.

End Watchdog.

(** After [disconnectWithoutPong] a user keeps exactly the connections that
    did not wait for a pong. *)
Lemma disconnectWithoutPong_conns u st :
  cs_conns u (m_connectionStorage (disconnectWithoutPong st).2)
  = filter (fun e => ¬ awaiting (m_connectionStorage st) e)
           (cs_conns u (m_connectionStorage st)).
Proof.
  unfold disconnectWithoutPong, cs_conns. simpl.
  rewrite lookup_omap.
  destruct (cs_map (m_connectionStorage st) !! u) as [m|]; simpl.
  - unfold keep_alive. destruct (decide _) as [->|]; reflexivity.
  - now rewrite map_filter_empty.
Qed.

Lemma disconnectWithoutPong_lookup u k st :
  cs_conns u (m_connectionStorage (disconnectWithoutPong st).2) !! k
  = if decide (k ∈ cs_pongWait (m_connectionStorage st)) then None
    else cs_conns u (m_connectionStorage st) !! k.
Proof.
  rewrite disconnectWithoutPong_conns.
  destruct (decide (k ∈ cs_pongWait (m_connectionStorage st))) as [Hin|Hout].
  - apply map_lookup_filter_None. right. intros x _ Hn. now apply Hn.
  - destruct (cs_conns u (m_connectionStorage st) !! k) as [x|] eqn:E.
    + apply map_lookup_filter_Some. split; [exact E | exact Hout].
    + apply map_lookup_filter_None. now left.
Qed.

(** The connections counted by [disconnectWithoutPong] are the registered
    ones that wait for a pong. *)
Lemma dangling_spec cs e :
  In e (dangling cs)
  <-> e.1 ∈ cs_pongWait cs
      /\ exists u conns, cs_map cs !! u = Some conns /\ conns !! e.1 = Some e.2.
Proof.
  unfold dangling. rewrite in_flat_map. split.
  - intros ([u conns] & Hu & He). simpl in He.
    apply list_elem_of_In, elem_of_map_to_list in Hu.
    apply list_elem_of_In in He. destruct e as [k x].
    apply elem_of_map_to_list, map_lookup_filter_Some in He as [Hk Hw].
    split; [exact Hw|]. now exists u, conns.
  - intros (Hw & u & conns & Hu & Hk). exists (u, conns). split.
    + now apply list_elem_of_In, elem_of_map_to_list.
    + simpl. apply list_elem_of_In. destruct e as [k x].
      apply elem_of_map_to_list, map_lookup_filter_Some. now split.
Qed.

Lemma cs_remove_lookup uid cid cs : cs_conns uid (cs_remove uid cid cs) !! cid = None.
Proof.
  unfold cs_remove, cs_conns.
  destruct (cs_map cs !! uid) as [m|] eqn:E.
  - destruct (decide (delete cid m = ∅)); simpl.
    + now rewrite lookup_delete_eq.
    + rewrite lookup_insert_eq. simpl. apply lookup_delete_eq.
  - now rewrite E.
Qed.

Lemma inactiveReason_names_duration lifetime idle :
  exists pre post, inactiveReason lifetime idle = pre +:+ pretty idle +:+ post.
Proof.
  exists ("Inactive more than " +:+ pretty lifetime +:+ " seconds ("), ")".
  unfold inactiveReason. now rewrite !append_assoc.
Qed.

(** C7.  One turn of the watchdog.  The scan of the snapshot adds to the
    trace the events of its entries and nothing else; for a connection [c] in
    the snapshot, that event is the close with [INACTIVE_CONNECTION] and a
    reason that contains the idle time, when the idle time of the owner is at
    least [lifetime], and otherwise a [PING] of one byte.  The completion of
    the ping marks the connection as waiting for a pong on success and removes
    it from the registry on any error.  The pruning step that follows the two
    second sleep returns the number of registered connections that wait for a
    pong and removes exactly those. *)
Theorem watchdog_turn {C : Collaborators}
  (lifetime : Z) (st : ChatServer) (uid : user_id_t)
  (conns : gmap Z (option Connection)) (cid : conn_id_t) (c : Connection) :
  cs_map (m_connectionStorage st) !! uid = Some conns ->
  conns !! cid = Some (Some c) ->
  let idle := getInactiveTime (clock st) (statOf uid st) in
  trace (watchdog_scan lifetime st) = trace st ++ watchdog_events lifetime st
  /\ In (if lifetime <=? idle
         then EvSendClose c STATUS_INACTIVE_CONNECTION (inactiveReason lifetime idle)
         else EvSend c "." FLAG_PING (CbPing c))
        (watchdog_events lifetime st)
  /\ (exists pre post, inactiveReason lifetime idle = pre +:+ pretty idle +:+ post)
  /\ String.length "." = 1%nat
  /\ (forall errorCode ts s,
        runCallback (CbPing c) errorCode ts s
        = if errorCode =? 0
          then set_storage (cs_markPongWait c) s
          else set_storage (cs_remove_conn c) s)
  /\ (forall cs,
        getUniqueId c ∈ cs_pongWait (cs_markPongWait c cs)
        /\ cs_conns (getId c) (cs_remove_conn c cs) !! getUniqueId c = None)
  /\ (forall s,
        (watchdog_prune s).1
        = Z.of_nat (length (dangling (m_connectionStorage s)))
        /\ (forall e, In e (dangling (m_connectionStorage s))
                      <-> e.1 ∈ cs_pongWait (m_connectionStorage s)
                          /\ exists u m, cs_map (m_connectionStorage s) !! u = Some m
                                         /\ m !! e.1 = Some e.2)
        /\ (forall u k,
              cs_conns u (m_connectionStorage (watchdog_prune s).2) !! k
              = if decide (k ∈ cs_pongWait (m_connectionStorage s)) then None
                else cs_conns u (m_connectionStorage s) !! k)).
Proof.
  intros Hu Hc idle. split; [apply watchdog_scan_trace|].
  split.
  { unfold watchdog_events. apply in_flat_map. exists (uid, conns). split.
    - now apply list_elem_of_In, elem_of_map_to_list.
    - simpl. apply in_flat_map. exists (cid, Some c). split.
      + now apply list_elem_of_In, elem_of_map_to_list.
      + unfold watchdog_event. simpl. fold idle.
        destruct (lifetime <=? idle); now left. }
  split; [apply inactiveReason_names_duration|].
  split; [reflexivity|].
  split.
  { intros errorCode ts s. simpl. now destruct (errorCode =? 0). }
  split.
  { intros cs. split.
    - unfold cs_markPongWait. simpl. set_solver.
    - apply cs_remove_lookup. }
  intros s. split; [reflexivity|]. split.
  - intros e. apply dangling_spec.
  - intros u k. apply disconnectWithoutPong_lookup.
Qed.

Lemma watchdog_turn_witness :
  let idle10 := set_statistics (insert 10 (mkStat 1 0 0 0 0 30)) Demo.server2 in
  trace (watchdog_scan 60 idle10)
  = [EvSendClose (Demo.conn 1 10) STATUS_INACTIVE_CONNECTION
                 "Inactive more than 60 seconds (70)";
     EvSend (Demo.conn 2 20) "." FLAG_PING (CbPing (Demo.conn 2 20))].
Proof.
  intros idle10.
  pose proof (watchdog_turn (C := Demo.collaborators) 60 idle10 10
                {[ 1 := Some (Demo.conn 1 10) ]} 1 (Demo.conn 1 10)
                eq_refl eq_refl) as (Htrace & _).
  rewrite Htrace. reflexivity.
Defined.

(** * Further properties *)

(** ** Frame buffer: round trip and independence of senders *)

Lemma writeFrameBuffer_other a b input clear st :
  a <> b ->
  m_frameBuffer (writeFrameBuffer a input clear st) !! b = m_frameBuffer st !! b.
Proof.
  intros Hne. unfold writeFrameBuffer.
  destruct (negb (hasFrameBuffer a st)); [|destruct clear]; simpl;
    rewrite lookup_alter_ne by exact Hne;
    try rewrite lookup_insert_ne by exact Hne; reflexivity.
Qed.

Lemma readFrameBuffer_other a b clear st :
  a <> b ->
  m_frameBuffer (readFrameBuffer a clear st).2 !! b = m_frameBuffer st !! b.
Proof.
  intros Hne. unfold readFrameBuffer.
  destruct (negb (hasFrameBuffer a st)); [reflexivity|].
  destruct clear; simpl; [now rewrite lookup_delete_ne | reflexivity].
Qed.

Lemma appending_writes senderId more : forall st x,
  m_frameBuffer st !! senderId = Some x ->
  m_frameBuffer
    (fold_left (fun s b => writeFrameBuffer senderId b false s) more st)
    !! senderId = Some (x +:+ concat_all more).
Proof.
  induction more as [|b more IH]; intros st x Hx; simpl.
  - unfold concat_all. simpl. now rewrite append_empty_r.
  - rewrite (IH _ (x +:+ b) (writeFrameBuffer_append _ _ _ _ Hx)).
    change (concat_all (b :: more)) with (b +:+ concat_all more).
    now rewrite append_assoc.
Qed.

Lemma readFrameBuffer_keep senderId st x :
  m_frameBuffer st !! senderId = Some x ->
  readFrameBuffer senderId false st = (x, st).
Proof.
  intros H. unfold readFrameBuffer.
  now rewrite (hasFrameBuffer_Some _ _ _ H), H.
Qed.

(** X1.  Round trip of the frame buffer: after a clearing write of [first]
    and appending writes of [more], a read without [clear] returns
    [first ++ more] and leaves the state as it is, so it can be repeated; a
    read with [clear] returns the same bytes and leaves the sender without an
    entry.  What the buffer held before the clearing write does not matter. *)
Theorem frameBuffer_round_trip
  (senderId : user_id_t) (first : string) (more : list string) (st : ChatServer) :
  let st1 :=
    fold_left (fun s b => writeFrameBuffer senderId b false s) more
              (writeFrameBuffer senderId first true st) in
  readFrameBuffer senderId false st1 = (first +:+ concat_all more, st1)
  /\ (readFrameBuffer senderId true st1).1 = first +:+ concat_all more
  /\ hasFrameBuffer senderId (readFrameBuffer senderId true st1).2 = false.
Proof.
  intros st1.
  assert (m_frameBuffer st1 !! senderId = Some (first +:+ concat_all more)) as H.
  { apply appending_writes, writeFrameBuffer_clear. }
  split; [now apply readFrameBuffer_keep|].
  rewrite readFrameBuffer_clear, H. split; [reflexivity|].
  apply hasFrameBuffer_None. simpl. apply lookup_delete_eq.
Qed.

(** X2.  The buffers of two senders do not interfere: a write or a read for
    sender [a], clearing or not, leaves the entry of any other sender [b]
    as it is. *)
Theorem frameBuffer_senders_independent
  (a b : user_id_t) (input : string) (clear : bool) (st : ChatServer) :
  a <> b ->
  m_frameBuffer (writeFrameBuffer a input clear st) !! b = m_frameBuffer st !! b
  /\ m_frameBuffer (readFrameBuffer a clear st).2 !! b = m_frameBuffer st !! b.
Proof.
  intros Hne. split;
    [now apply writeFrameBuffer_other | now apply readFrameBuffer_other].
Qed.

Lemma frameBuffer_senders_independent_witness :
  let st := writeFrameBuffer 20 "xy" true Demo.server0 in
  m_frameBuffer (writeFrameBuffer 10 "ab" true st) !! 20 = Some "xy"
  /\ m_frameBuffer (readFrameBuffer 10 true st).2 !! 20 = Some "xy".
Proof.
  intros st.
  destruct (frameBuffer_senders_independent 10 20 "ab" true st) as [H1 H2];
    [discriminate|].
  rewrite H1, H2. split; reflexivity.
Defined.

Section ReceiveMore.
Context {C : Collaborators}.

(** X3.  A [FRAGMENT_CONTINUE] frame from a sender without a buffer entry
    is not rejected: it creates the entry with the bytes of the frame, so a
    later [FRAGMENT_END] works on these bytes followed by its own. *)
Theorem continue_without_begin
  (connection : Connection) (chunk bn : string) (st : ChatServer) :
  m_frameBuffer st !! getId connection = None ->
  let st1 := onMessage connection (mkMessage FLAG_FRAGMENT_CONTINUE chunk) st in
  m_frameBuffer st1 !! getId connection = Some chunk
  /\ trace st1 = trace st
  /\ onMessage connection (mkMessage FLAG_FRAGMENT_END bn) st1
     = if m_maxMessageSize st <? Z.of_nat (String.length (chunk +:+ bn))
       then sendClose connection STATUS_MESSAGE_TOO_BIG (tooBigReason st1)
                      (set_frameBuffer (delete (getId connection)) st1)
       else onMessage_route connection (parsePayload (chunk +:+ bn))
                            (set_frameBuffer (delete (getId connection)) st1).
Proof.
  intros Hnone st1.
  assert (m_frameBuffer st1 !! getId connection = Some chunk) as Hbuf.
  { subst st1. rewrite onMessage_continue. unfold writeFrameBuffer.
    rewrite (hasFrameBuffer_None _ _ Hnone). simpl.
    now rewrite lookup_alter_eq, lookup_insert_eq. }
  split; [exact Hbuf|]. split.
  - subst st1. rewrite onMessage_continue. unfold writeFrameBuffer.
    now rewrite (hasFrameBuffer_None _ _ Hnone).
  - rewrite onMessage_end. cbv zeta. rewrite Hbuf. simpl default.
    subst st1. rewrite onMessage_continue.
    now rewrite writeFrameBuffer_maxMessageSize.
Qed.

Lemma only_frameBuffer_write senderId input clear st :
  only_frameBuffer st (writeFrameBuffer senderId input clear st).
Proof.
  unfold writeFrameBuffer.
  destruct (negb (hasFrameBuffer senderId st)); [|destruct clear];
    eexists; destruct st; reflexivity.
Qed.

(** X4.  Frames that never reach the router.  A [FRAGMENT_BEGIN] (text or
    binary) or [FRAGMENT_CONTINUE] frame changes the frame buffer and nothing
    else: no close, no send, no listener call, no queue or statistics entry,
    whatever bytes it carries.  A pong is handled by [onPong] alone and
    leaves trace, frame buffer, queues and statistics as they are. *)
Theorem buffered_frames_do_not_route
  (connection : Connection) (message : Message) (st : ChatServer) :
  (fin_rsv_opcode message = FLAG_FRAGMENT_BEGIN_TEXT
   \/ fin_rsv_opcode message = FLAG_FRAGMENT_BEGIN_BINARY
   \/ fin_rsv_opcode message = FLAG_FRAGMENT_CONTINUE ->
   only_frameBuffer st (endpoint_onMessage connection message st))
  /\ (fin_rsv_opcode message = FLAG_PONG ->
      let st' := endpoint_onMessage connection message st in
      trace st' = trace st
      /\ m_frameBuffer st' = m_frameBuffer st
      /\ m_undeliveredMessagesMap st' = m_undeliveredMessagesMap st
      /\ m_statistics st' = m_statistics st).
Proof.
  destruct message as [opcode bytes]. simpl. split.
  - intros [-> | [-> | ->]];
      apply (only_frameBuffer_write (getId connection) bytes).
  - intros ->. repeat split.
Qed.

(** A frame on a connection of another user leaves the buffer entry of
    [sender] as it is, whatever the frame is. *)
Lemma other_sender_keeps_buffer sender c m st :
  getId c <> sender ->
  m_frameBuffer (endpoint_onMessage c m st) !! sender = m_frameBuffer st !! sender.
Proof.
  intros Hne. unfold endpoint_onMessage.
  destruct (fin_rsv_opcode m =? FLAG_PONG); [reflexivity|].
  unfold onMessage.
  destruct (negb _ && negb _); [|now rewrite route_frameBuffer].
  destruct (_ || _); [now apply writeFrameBuffer_other|].
  destruct (_ =? FLAG_FRAGMENT_CONTINUE); [now apply writeFrameBuffer_other|].
  destruct (_ =? FLAG_FRAGMENT_END); [|now rewrite route_frameBuffer].
  rewrite readFrameBuffer_clear.
  destruct (_ <? _).
  - simpl. now rewrite lookup_delete_ne.
  - rewrite route_frameBuffer. simpl. now rewrite lookup_delete_ne.
Qed.

Lemma others_keep_buffer sender noise : forall st,
  Forall (fun f : Connection * Message => getId f.1 <> sender) noise ->
  m_frameBuffer (receive noise st) !! sender = m_frameBuffer st !! sender.
Proof.
  induction noise as [|f noise IH]; intros st Hall; [reflexivity|].
  inversion Hall as [|? ? Hf Hrest]; subst.
  unfold receive. simpl. fold (receive noise (endpoint_onMessage f.1 f.2 st)).
  rewrite (IH _ Hrest). now apply other_sender_keeps_buffer.
Qed.

Lemma receive_app l1 l2 st : receive (l1 ++ l2) st = receive l2 (receive l1 st).
Proof. unfold receive. apply fold_left_app. Qed.

Lemma interleaved_continue c chunks : forall st x,
  Forall (fun nb : list (Connection * Message) * string =>
            Forall (fun f : Connection * Message => getId f.1 <> getId c) nb.1)
         chunks ->
  m_frameBuffer st !! getId c = Some x ->
  m_frameBuffer (receive (interleaved c chunks) st) !! getId c
  = Some (x +:+ concat_all (map snd chunks)).
Proof.
  induction chunks as [|[noise b] chunks IH]; intros st x Hall Hx.
  - unfold concat_all. simpl. now rewrite append_empty_r.
  - inversion Hall as [|? ? Hn Hrest]; subst. simpl in Hn.
    change (interleaved c ((noise, b) :: chunks))
      with ((noise ++ [(c, mkMessage FLAG_FRAGMENT_CONTINUE b)])
            ++ interleaved c chunks).
    rewrite receive_app, receive_app.
    rewrite (IH _ (x +:+ b) Hrest).
    + change (concat_all (map snd ((noise, b) :: chunks)))
        with (b +:+ concat_all (map snd chunks)).
      now rewrite append_assoc.
    + change (receive [(c, mkMessage FLAG_FRAGMENT_CONTINUE b)] (receive noise st))
        with (writeFrameBuffer (getId c) b false (receive noise st)).
      apply writeFrameBuffer_append.
      now rewrite (others_keep_buffer _ _ _ Hn).
Qed.

(** X5.  Reassembly is not disturbed by the traffic of other users.  The
    fragments of one connection may be interleaved with any frames
    (fragments, whole messages, pongs) of connections of other users: when
    its [FRAGMENT_END] frame arrives, the bytes checked against the limit and
    handed to the parser are still its own fragments in arrival order. *)
Theorem reassembly_with_interleaved_traffic
  (binary : bool) (c : Connection) (b0 bn : string)
  (chunks : list (list (Connection * Message) * string))
  (tail_noise : list (Connection * Message)) (st : ChatServer) :
  Forall (fun nb : list (Connection * Message) * string =>
            Forall (fun f : Connection * Message => getId f.1 <> getId c) nb.1)
         chunks ->
  Forall (fun f : Connection * Message => getId f.1 <> getId c) tail_noise ->
  let begin_ :=
    mkMessage (if binary then FLAG_FRAGMENT_BEGIN_BINARY
               else FLAG_FRAGMENT_BEGIN_TEXT) b0 in
  let st1 := receive ((c, begin_) :: interleaved c chunks ++ tail_noise) st in
  let assembled := b0 +:+ concat_all (map snd chunks) +:+ bn in
  endpoint_onMessage c (mkMessage FLAG_FRAGMENT_END bn) st1
  = if m_maxMessageSize st1 <? Z.of_nat (String.length assembled)
    then sendClose c STATUS_MESSAGE_TOO_BIG (tooBigReason st1)
                   (set_frameBuffer (delete (getId c)) st1)
    else onMessage_route c (parsePayload assembled)
                         (set_frameBuffer (delete (getId c)) st1).
Proof.
  intros Hchunks Htail begin_ st1 assembled.
  assert (m_frameBuffer st1 !! getId c = Some (b0 +:+ concat_all (map snd chunks)))
    as Hbuf.
  { subst st1.
    change ((c, begin_) :: interleaved c chunks ++ tail_noise)
      with ([(c, begin_)] ++ interleaved c chunks ++ tail_noise).
    rewrite receive_app, receive_app.
    rewrite (others_keep_buffer _ _ _ Htail).
    apply (interleaved_continue c chunks _ b0 Hchunks).
    subst begin_.
    destruct binary; exact (writeFrameBuffer_clear (getId c) b0 st). }
  change (endpoint_onMessage c (mkMessage FLAG_FRAGMENT_END bn) st1)
    with (onMessage c (mkMessage FLAG_FRAGMENT_END bn) st1).
  rewrite onMessage_end. cbv zeta. rewrite Hbuf. simpl default.
  subst assembled. now rewrite append_assoc.
Qed.

End ReceiveMore.

Lemma buffered_frames_do_not_route_witness :
  only_frameBuffer Demo.server2
    (endpoint_onMessage (C := Demo.collaborators) (Demo.conn 1 10)
       (mkMessage FLAG_FRAGMENT_BEGIN_TEXT "not a payload") Demo.server2)
  /\ trace (endpoint_onMessage (C := Demo.collaborators) (Demo.conn 1 10)
              (mkMessage FLAG_PONG "not a payload") Demo.server2)
     = trace Demo.server2.
Proof.
  split.
  - apply (proj1 (buffered_frames_do_not_route (C := Demo.collaborators)
                    (Demo.conn 1 10)
                    (mkMessage FLAG_FRAGMENT_BEGIN_TEXT "not a payload")
                    Demo.server2)).
    left. reflexivity.
  - apply (proj2 (buffered_frames_do_not_route (C := Demo.collaborators)
                    (Demo.conn 1 10)
                    (mkMessage FLAG_PONG "not a payload") Demo.server2)).
    reflexivity.
Defined.

Lemma reassembly_with_interleaved_traffic_witness :
  let c := Demo.conn 1 10 in
  let other := Demo.conn 2 20 in
  let noise := [(other, mkMessage FLAG_FRAGMENT_BEGIN_TEXT "zz");
                (other, Demo.text_frame "hi")] in
  let st1 :=
    receive (C := Demo.collaborators)
      ((c, mkMessage FLAG_FRAGMENT_BEGIN_TEXT "A")
       :: interleaved c [(noise, "B")] ++ [(other, mkMessage FLAG_FRAGMENT_END "z")])
      Demo.server2 in
  let assembled := "A" +:+ concat_all (map snd [(noise, "B")]) +:+ "C" in
  assembled = "ABC"
  /\ endpoint_onMessage (C := Demo.collaborators) c
       (mkMessage FLAG_FRAGMENT_END "C") st1
     = if m_maxMessageSize st1 <? Z.of_nat (String.length assembled)
       then sendClose c STATUS_MESSAGE_TOO_BIG
                      (tooBigReason (C := Demo.collaborators) st1)
                      (set_frameBuffer (delete (getId c)) st1)
       else onMessage_route (C := Demo.collaborators) c
              (parsePayload (Collaborators := Demo.collaborators) assembled)
              (set_frameBuffer (delete (getId c)) st1).
Proof.
  intros c other noise st1 assembled. split; [reflexivity|].
  apply (reassembly_with_interleaved_traffic (C := Demo.collaborators)
           false c "A" "C" [(noise, "B")]
           [(other, mkMessage FLAG_FRAGMENT_END "z")] Demo.server2);
    repeat constructor; discriminate.
Defined.

(** ** Routing: listeners, fan-out and queues *)

Lemma emit_with_trace e t st : emit e (with_trace t st) = with_trace (t ++ [e]) st.
Proof. reflexivity. Qed.

Lemma with_trace_same st : with_trace (trace st) st = st.
Proof. now destruct st. Qed.

Lemma listeners_with_trace {C : Collaborators} (l : list nat) : forall t p st,
  fst (fold_left callListener l (with_trace t st, p))
  = with_trace (t ++ listener_calls p l) st.
Proof.
  induction l as [|i l IH]; intros t p st; simpl.
  - now rewrite app_nil_r.
  - unfold callListener at 2. simpl fst. simpl snd.
    rewrite emit_with_trace, IH. now rewrite <- app_assoc.
Qed.

(** [callOnMessageListeners] adds one call for each listener to the trace and
    changes nothing else. *)
Lemma callOnMessageListeners_effect {C : Collaborators} p st :
  callOnMessageListeners p st = with_trace (trace st ++ listener_events p st) st.
Proof.
  unfold callOnMessageListeners, listener_events.
  pose proof (listeners_with_trace (seq 0 (m_messageListeners st)) (trace st) p st) as H.
  rewrite with_trace_same in H. exact H.
Qed.

Lemma only_registry_and_trace_refl st : only_registry_and_trace st st.
Proof. exists (m_connectionStorage st), (trace st). now destruct st. Qed.

Section Fanout.
Context {C : Collaborators}.

Lemma sendTo_each_effect r p st s conn :
  only_registry_and_trace st s ->
  only_registry_and_trace st (sendTo_each r p (toJson p) 129 s conn)
  /\ trace (sendTo_each r p (toJson p) 129 s conn)
     = trace s ++ match conn.2 with
                  | Some c => [EvSend c (toJson p) 129 (CbSendTo r p conn.1)]
                  | None => []
                  end.
Proof.
  intros (cs & t & ->). unfold sendTo_each.
  destruct conn as [cid [c|]]; simpl.
  - split; [|reflexivity]. eexists _, _. reflexivity.
  - split; [|now rewrite app_nil_r]. eexists _, _. reflexivity.
Qed.

(** [sendTo] for a recipient with connections: one transport send for each
    connection that is not null, in the order of the map; queues, statistics
    and frame buffers are not touched. *)
Lemma sendTo_connected r p st :
  cs_size r (m_connectionStorage st) <> 0%nat ->
  only_registry_and_trace st (sendTo r p st)
  /\ trace (sendTo r p st)
     = trace st ++ sendTo_events r p (cs_conns r (m_connectionStorage st)).
Proof.
  intros Hs. unfold sendTo.
  destruct (Nat.eqb _ 0) eqn:E; [apply Nat.eqb_eq in E; contradiction|].
  rewrite (cs_get_nonempty _ _ Hs). unfold sendTo_events.
  apply (fold_left_trace (only_registry_and_trace st)
           (sendTo_each r p (toJson p) 129)
           (fun e : Z * option Connection =>
              match e.2 with
              | Some c => [EvSend c (toJson p) 129 (CbSendTo r p e.1)]
              | None => []
              end)).
  - intros s b _ Hs'. now apply sendTo_each_effect.
  - apply only_registry_and_trace_refl.
Qed.

(** [sendTo] for a recipient without a connection: the single-recipient copy
    joins the queue of the recipient when the queue is enabled, and only
    statistics change besides. *)
Lemma sendTo_offline r p st :
  cs_size r (m_connectionStorage st) = 0%nat ->
  only_statistics
    (if chat_enableUndeliveredQueue (settings st)
     then with_queue r (queueOf r st ++ [setRecipient r p]) st
     else st)
    (sendTo r p st).
Proof.
  intros Hs. unfold sendTo. rewrite Hs. simpl Nat.eqb. cbv iota.
  destruct (chat_enableUndeliveredQueue (settings st)) eqn:Hq.
  - rewrite (handleUndeliverable_enabled _ _ _ Hq).
    apply onMessageSent_unsent_only_statistics.
  - rewrite (handleUndeliverable_disabled _ _ _ Hq).
    apply onMessageSent_unsent_only_statistics.
Qed.

Lemma sendTo_trace r p st :
  exists new, trace (sendTo r p st) = trace st ++ new
              /\ Forall (transport_send_to p r) new.
Proof.
  destruct (decide (cs_size r (m_connectionStorage st) = 0%nat)) as [Hz|Hnz].
  - exists []. split; [|constructor]. rewrite app_nil_r.
    destruct (sendTo_offline r p st Hz) as [m ->].
    now destruct (chat_enableUndeliveredQueue (settings st)).
  - destruct (sendTo_connected r p st Hnz) as [_ Ht].
    exists (sendTo_events r p (cs_conns r (m_connectionStorage st))).
    split; [exact Ht|]. unfold sendTo_events.
    apply Forall_forall. intros e He. apply list_elem_of_In, in_flat_map in He.
    destruct He as ([cid [c|]] & _ & Hin); simpl in Hin; [|contradiction].
    destruct Hin as [<-|[]]. now exists c, cid.
Qed.

(** X6.  Fan-out to a connected recipient.  When the recipient has
    connections, [sendTo] hands the serialized payload to the transport once
    for each connection that is not null, as a text frame (129) with the
    callback that remembers recipient, payload and connection id; it queues
    nothing and counts nothing (accounting waits for the completion). *)
Theorem sendTo_fan_out (r : user_id_t) (p : MessagePayload) (st : ChatServer) :
  cs_size r (m_connectionStorage st) <> 0%nat ->
  let st' := sendTo r p st in
  trace st' = trace st ++ sendTo_events r p (cs_conns r (m_connectionStorage st))
  /\ (forall cid c,
        cs_conns r (m_connectionStorage st) !! cid = Some (Some c) ->
        In (EvSend c (toJson p) 129 (CbSendTo r p cid)) (trace st'))
  /\ m_undeliveredMessagesMap st' = m_undeliveredMessagesMap st
  /\ m_statistics st' = m_statistics st
  /\ m_frameBuffer st' = m_frameBuffer st.
Proof.
  intros Hs st'. destruct (sendTo_connected r p st Hs) as [(cs & t & Hst) Ht].
  split; [exact Ht|]. split.
  - intros cid c Hc. subst st'. rewrite Ht. apply in_or_app. right.
    unfold sendTo_events. apply in_flat_map. exists (cid, Some c). split.
    + now apply list_elem_of_In, elem_of_map_to_list.
    + now left.
  - subst st'. rewrite Hst. now repeat split.
Qed.

(** X7.  A payload for the bot is never handed to the transport: [send]
    calls each listener once, in the order of registration, the first with
    the payload and each later one with what the listeners before it left of
    it, and changes nothing else, even when the recipients have
    connections. *)
Theorem send_bot_payload (p : MessagePayload) (st : ChatServer) :
  isForBot p = true ->
  send p st = with_trace (trace st ++ listener_events p st) st.
Proof.
  intros Hb. unfold send. rewrite Hb. apply callOnMessageListeners_effect.
Qed.

(** X8.  The shape of what [send] adds to the trace, for any payload and any
    state: first one call of each listener, in the order of registration, the
    first with the payload and each later one with what the listeners before
    it left of it; then only transport sends of the payload itself (its
    serialization, frame byte 129) to recipients of the payload other than 0,
    whatever the listeners did to the object they were handed.  No close is
    ever issued by [send]. *)
Theorem send_trace_shape (p : MessagePayload) (st : ChatServer) :
  exists more,
    trace (send p st) = trace st ++ listener_events p st ++ more
    /\ Forall (transport_send_of p) more.
Proof.
  unfold send. destruct (isForBot p).
  - exists []. rewrite callOnMessageListeners_effect. simpl.
    split; [now rewrite app_nil_r | constructor].
  - set (base := trace st ++ listener_events p st).
    assert (forall s,
              (exists more, trace s = base ++ more /\ Forall (transport_send_of p) more) ->
              exists more,
                trace (fold_left (fun s uid => if uid =? 0 then s else sendTo uid p s)
                                 (getRecipients p) s) = base ++ more
                /\ Forall (transport_send_of p) more) as Hfold.
    { intros s Hs.
      apply (fold_left_invariant
               (fun s => exists more, trace s = base ++ more
                                      /\ Forall (transport_send_of p) more));
        [|exact Hs].
      intros a uid Hin (more & Hm & Hall).
      destruct (uid =? 0) eqn:Hz; [now exists more|].
      apply Z.eqb_neq in Hz.
      destruct (sendTo_trace uid p a) as (new & Hn & Hnew).
      exists (more ++ new). split.
      - rewrite Hn, Hm. now rewrite app_assoc.
      - apply Forall_app. split; [exact Hall|].
        eapply Forall_impl; [exact Hnew|]. intros e He.
        exists uid. split; [now apply list_elem_of_In|]. now split. }
    destruct (Hfold (callOnMessageListeners p st)) as (more & Hm & Hall).
    { exists []. rewrite callOnMessageListeners_effect. simpl.
      split; [now rewrite app_nil_r | constructor]. }
    exists more. split; [|exact Hall]. rewrite Hm. unfold base.
    now rewrite app_assoc.
Qed.

End Fanout.

Lemma sendTo_fan_out_witness :
  let p := mkPayload 10 [20] "msg" "hi" true "" in
  trace (sendTo (C := Demo.collaborators) 20 p Demo.server2)
  = [EvSend (Demo.conn 2 20) "hi" 129 (CbSendTo 20 p 2)].
Proof.
  intros p.
  destruct (sendTo_fan_out (C := Demo.collaborators) 20 p Demo.server2)
    as (Ht & _); [discriminate|].
  rewrite Ht. reflexivity.
Defined.

Lemma send_bot_payload_witness :
  let p := mkPayload 10 [0; 20] "msg" "hi" true "" in
  trace (send (C := Demo.collaborators) p Demo.server2) = [EvListener 0 p]
  /\ trace (send (C := Demo.collaborators) p Demo.listeners2)
     = [EvListener 0 p; EvListener 1 (mkPayload 0 [] "" "" false "")].
Proof.
  intros p.
  rewrite (send_bot_payload (C := Demo.collaborators) p Demo.server2 eq_refl).
  rewrite (send_bot_payload (C := Demo.collaborators) p Demo.listeners2 eq_refl).
  split; reflexivity.
Defined.

(** ** Queues *)

Lemma queueOf_with_queue_ne r r' q st :
  r <> r' -> queueOf r' (with_queue r q st) = queueOf r' st.
Proof.
  intros Hne. unfold queueOf, with_queue. simpl. now rewrite lookup_insert_ne.
Qed.

(** A loop over distinct recipients whose every turn appends one payload to
    the queue of its recipient appends, in the end, one payload to the queue
    of each recipient of the list and nothing to the other queues. *)
Lemma fold_left_queues (P : ChatServer -> Prop)
  (f : ChatServer -> Z -> ChatServer) (g : Z -> MessagePayload) (l : list Z) :
  NoDup l ->
  (forall s r, r ∈ l -> P s ->
     P (f s r)
     /\ forall r', queueOf r' (f s r)
                   = queueOf r' s ++ (if decide (r' = r) then [g r] else [])) ->
  forall st, P st ->
    P (fold_left f l st)
    /\ forall r', queueOf r' (fold_left f l st)
                  = queueOf r' st ++ (if decide (r' ∈ l) then [g r'] else []).
Proof.
  induction l as [|a l IH]; intros Hnd Hf st Hst; simpl.
  - split; [exact Hst|]. intros r'.
    destruct (decide (r' ∈ [])) as [Hin|_]; [inversion Hin | now rewrite app_nil_r].
  - apply NoDup_cons in Hnd as [Ha Hnd].
    destruct (Hf st a (list_elem_of_here _ _) Hst) as [Hp Hq].
    destruct (IH Hnd (fun s r Hr => Hf s r (list_elem_of_further _ _ _ Hr)) _ Hp)
      as [Hp' Hq'].
    split; [exact Hp'|]. intros r'. rewrite Hq', Hq.
    destruct (decide (r' = a)) as [->|Hne].
    + destruct (decide (a ∈ l)) as [Hin|_]; [contradiction|].
      destruct (decide (a ∈ a :: l)) as [_|Hout]; [now rewrite app_nil_r|].
      exfalso. apply Hout. apply list_elem_of_here.
    + rewrite app_nil_r.
      destruct (decide (r' ∈ l)) as [Hin|Hout];
        destruct (decide (r' ∈ a :: l)) as [Hin'|Hout']; try reflexivity.
      * exfalso. apply Hout'. now apply list_elem_of_further.
      * exfalso. apply elem_of_cons in Hin' as [?|?]; contradiction.
Qed.

Lemma pushUndelivered_queue p r st r' :
  queueOf r' (pushUndelivered p r st)
  = queueOf r' st ++ (if decide (r' = r) then [p] else []).
Proof.
  unfold pushUndelivered. fold (with_queue r (queueOf r st ++ [p]) st).
  destruct (decide (r' = r)) as [->|Hne].
  - apply queueOf_with_queue.
  - rewrite app_nil_r. apply queueOf_with_queue_ne. congruence.
Qed.

(** X9.  [enqueueUndeliveredMessage] on a payload with distinct recipients
    appends the payload, with its recipient list as it is, to the queue of
    each of its recipients; the other queues, the trace, the registry and the
    statistics are unchanged.  It does not look at the undelivered-queue
    setting. *)
Theorem enqueueUndeliveredMessage_every_recipient
  (p : MessagePayload) (st : ChatServer) :
  NoDup (getRecipients p) ->
  let st' := enqueueUndeliveredMessage p st in
  (forall r, queueOf r st'
             = queueOf r st ++ (if decide (r ∈ getRecipients p) then [p] else []))
  /\ trace st' = trace st
  /\ m_connectionStorage st' = m_connectionStorage st
  /\ m_statistics st' = m_statistics st.
Proof.
  intros Hnd st'. subst st'. unfold enqueueUndeliveredMessage.
  destruct (fold_left_queues
              (fun s => trace s = trace st
                        /\ m_connectionStorage s = m_connectionStorage st
                        /\ m_statistics s = m_statistics st)
              (fun s recipient => pushUndelivered p recipient s)
              (fun _ => p) (getRecipients p) Hnd) with (st := st) as [Hp Hq].
  - intros s r _ Hs. split; [exact Hs|]. intros r'. apply pushUndelivered_queue.
  - now repeat split.
  - split; [exact Hq | exact Hp].
Qed.

Lemma enqueueUndeliveredMessage_every_recipient_witness :
  let p := mkPayload 10 [20; 30] "msg" "hi" true "" in
  let st' := enqueueUndeliveredMessage p Demo.server0 in
  queueOf 20 st' = [p] /\ queueOf 30 st' = [p] /\ queueOf 10 st' = [].
Proof.
  intros p st'.
  assert (NoDup (getRecipients p)) as Hnd.
  { apply NoDup_cons. split; [|apply NoDup_singleton].
    intros H. apply list_elem_of_singleton in H. discriminate. }
  destruct (enqueueUndeliveredMessage_every_recipient p Demo.server0 Hnd)
    as (Hq & _).
  subst st'. rewrite !Hq. repeat split.
Defined.

Lemma isForBot_false_no_zero p :
  isForBot p = false -> 0 ∉ getRecipients p.
Proof.
  unfold isForBot, getRecipients. intros H Hin.
  apply list_elem_of_In in Hin.
  assert (existsb (Z.eqb 0) (p_recipients p) = true) as Ht.
  { apply existsb_exists. exists 0. split; [exact Hin | reflexivity]. }
  congruence.
Qed.

Section OfflineRouting.
Context {C : Collaborators}.

(** X10.  Routing a payload that is not for the bot (user 0 is not among its
    recipients) to pairwise distinct recipients that are all offline, with
    the queue enabled: [send] calls the listeners (the first with the
    payload, each later one with what the listeners before it left of it),
    hands nothing to the transport, and leaves in the queue of each recipient
    exactly one more payload, the copy of the payload itself whose only
    recipient is that user; the queues of all other users are as before and
    the registry is unchanged. *)
Theorem send_queues_offline_recipients (p : MessagePayload) (st : ChatServer) :
  isForBot p = false ->
  chat_enableUndeliveredQueue (settings st) = true ->
  NoDup (getRecipients p) ->
  (forall r, r ∈ getRecipients p -> cs_size r (m_connectionStorage st) = 0%nat) ->
  let st' := send p st in
  trace st' = trace st ++ listener_events p st
  /\ m_connectionStorage st' = m_connectionStorage st
  /\ forall r, queueOf r st'
               = queueOf r st
                 ++ (if decide (r ∈ getRecipients p) then [setRecipient r p] else []).
Proof.
  intros Hb Hen Hnd Hoff st'. subst st'. unfold send. rewrite Hb.
  rewrite callOnMessageListeners_effect.
  set (st0 := with_trace (trace st ++ listener_events p st) st).
  pose proof (isForBot_false_no_zero p Hb) as Hz.
  destruct (fold_left_queues
              (fun s => trace s = trace st0
                        /\ m_connectionStorage s = m_connectionStorage st
                        /\ settings s = settings st)
              (fun s uid => if uid =? 0 then s else sendTo uid p s)
              (fun r => setRecipient r p) (getRecipients p) Hnd) with (st := st0)
    as [(Ht & Hc & _) Hq].
  - intros s r Hr (Ht & Hc & Hs).
    destruct (r =? 0) eqn:Er.
    { apply Z.eqb_eq in Er. subst r. contradiction. }
    assert (cs_size r (m_connectionStorage s) = 0%nat) as Hsz
      by (rewrite Hc; now apply Hoff).
    destruct (sendTo_offline r p s Hsz) as [m Hm].
    rewrite Hs, Hen in Hm. rewrite Hm. split.
    + now repeat split.
    + intros r'.
      change (queueOf r' (set_statistics (fun _ => m)
                            (with_queue r (queueOf r s ++ [setRecipient r p]) s)))
        with (queueOf r' (with_queue r (queueOf r s ++ [setRecipient r p]) s)).
      destruct (decide (r' = r)) as [->|Hne].
      * apply queueOf_with_queue.
      * rewrite app_nil_r. apply queueOf_with_queue_ne. congruence.
  - now repeat split.
  - split; [exact Ht|]. split; [exact Hc|]. exact Hq.
Qed.

End OfflineRouting.

Lemma send_queues_offline_recipients_witness :
  let p := mkPayload 10 [20; 30] "msg" "hi" true "" in
  let st' := send (C := Demo.collaborators) p Demo.server0 in
  trace st' = [EvListener 0 p]
  /\ queueOf 20 st' = [mkPayload 10 [20] "msg" "hi" true ""]
  /\ queueOf 30 st' = [mkPayload 10 [30] "msg" "hi" true ""].
Proof.
  intros p st'.
  assert (NoDup (getRecipients p)) as Hnd.
  { apply NoDup_cons. split; [|apply NoDup_singleton].
    intros H. apply list_elem_of_singleton in H. discriminate. }
  destruct (send_queues_offline_recipients (C := Demo.collaborators) p
              Demo.server0 eq_refl eq_refl Hnd) as (Ht & _ & Hq).
  { intros r _. reflexivity. }
  subst st'. rewrite Ht, !Hq. repeat split.
Defined.

(** ** Send-back *)

Section SendBack.
Context {C : Collaborators}.

(** X11.  The send-back policy of [onMessage], for a valid payload.  No echo
    is made when send-back is disabled, when the payload is for the bot, or
    when the type of the payload equals an entry of the ignore list up to
    letter case; then the payload is just routed.  Otherwise the payload is
    first delivered to the user named as its sender (not to the connection
    the frame came on) and then routed.  In no case does the result depend on
    the connection the frame arrived on. *)
Theorem send_back_policy
  (connection : Connection) (p : MessagePayload) (st : ChatServer) :
  isValid p = true ->
  (chat_message_enableSendBack (settings st) = false
   \/ isForBot p = true
   \/ (exists ignore,
         In ignore (chat_message_ignoreTypesSendBack (settings st))
         /\ lower (getType p) = lower ignore) ->
   onMessage_route connection p st = send p st)
  /\ (chat_message_enableSendBack (settings st) = true ->
      isForBot p = false ->
      (forall ignore,
         In ignore (chat_message_ignoreTypesSendBack (settings st)) ->
         lower (getType p) <> lower ignore) ->
      onMessage_route connection p st = send p (sendTo (getSender p) p st))
  /\ (forall other, onMessage_route other p st = onMessage_route connection p st).
Proof.
  intros Hv. unfold onMessage_route. rewrite Hv. simpl negb. cbv iota.
  split; [|split].
  - intros [Hoff | [Hbot | (ignore & Hin & Heq)]].
    + now rewrite Hoff.
    + destruct (chat_message_enableSendBack (settings st)); [|reflexivity].
      rewrite Hbot. simpl. now rewrite andb_false_r.
    + destruct (chat_message_enableSendBack (settings st)); [|reflexivity].
      assert (existsb (fun i => equalsIgnoreCase (getType p) i)
                      (chat_message_ignoreTypesSendBack (settings st)) = true) as ->.
      { apply existsb_exists. exists ignore. split; [exact Hin|].
        unfold equalsIgnoreCase. now apply String.eqb_eq. }
      reflexivity.
  - intros Hon Hbot Hno. rewrite Hon, Hbot.
    assert (existsb (fun i => equalsIgnoreCase (getType p) i)
                    (chat_message_ignoreTypesSendBack (settings st)) = false) as ->.
    { apply not_true_is_false. intros H. apply existsb_exists in H.
      destruct H as (ignore & Hin & Heq). unfold equalsIgnoreCase in Heq.
      apply String.eqb_eq in Heq. exact (Hno ignore Hin Heq). }
    reflexivity.
  - reflexivity.
Qed.

End SendBack.

Lemma send_back_policy_witness :
  let st :=
    mkServer 100 false (m_connectionStorage Demo.server2) ∅ ∅ ∅ 0
             (mkSettings true true ["typing"] false) 100 [] in
  let typing := mkPayload 10 [20] "Typing" "..." true "" in
  let msg := mkPayload 10 [20] "msg" "hi" true "" in
  trace (onMessage_route (C := Demo.collaborators) (Demo.conn 1 10) typing st)
  = [EvSend (Demo.conn 2 20) "..." 129 (CbSendTo 20 typing 2)]
  /\ trace (onMessage_route (C := Demo.collaborators) (Demo.conn 1 10) msg st)
     = [EvSend (Demo.conn 1 10) "hi" 129 (CbSendTo 10 msg 1);
        EvSend (Demo.conn 2 20) "hi" 129 (CbSendTo 20 msg 2)].
Proof.
  intros st typing msg. split.
  - rewrite (proj1 (send_back_policy (C := Demo.collaborators)
                      (Demo.conn 1 10) typing st eq_refl)); [reflexivity|].
    right. right. exists "typing". split; [now left | reflexivity].
  - rewrite (proj1 (proj2 (send_back_policy (C := Demo.collaborators)
                             (Demo.conn 1 10) msg st eq_refl)));
      [reflexivity | reflexivity | reflexivity |].
    intros ignore [<-|[]]. discriminate.
Defined.

(** ** Completion of a transport send *)

Lemma clock_onStat id f st : clock (onStat id f st) = clock st.
Proof.
  destruct (only_statistics_onStat id f st st (only_statistics_refl st)) as [m ->].
  reflexivity.
Qed.

Lemma enable_onStat id f st :
  m_enableMessageDeliveryStatus (onStat id f st) = m_enableMessageDeliveryStatus st.
Proof.
  destruct (only_statistics_onStat id f st st (only_statistics_refl st)) as [m ->].
  reflexivity.
Qed.

Lemma clock_getStat id st : clock (getStat id st) = clock st.
Proof. unfold getStat. now destruct (m_statistics st !! id). Qed.

Section Completion.
Context {C : Collaborators}.

(** X12.  A failed transport send is queued again.  When the completion
    callback of [sendTo] runs with any error and the undelivered queue is
    enabled, the single-recipient copy of the payload is appended to the
    queue of the recipient and to no other queue; no statistics change and
    nothing is added to the trace.  The connection is removed from the
    registry only when the error is a broken pipe. *)
Theorem failed_send_is_requeued
  (r : user_id_t) (p : MessagePayload) (cid : conn_id_t)
  (errorCode ts : Z) (st : ChatServer) :
  errorCode <> 0 ->
  chat_enableUndeliveredQueue (settings st) = true ->
  let st' := runCallback (CbSendTo r p cid) errorCode ts st in
  (forall r', queueOf r' st'
              = queueOf r' st ++ (if decide (r' = r) then [setRecipient r p] else []))
  /\ trace st' = trace st
  /\ m_statistics st' = m_statistics st
  /\ m_connectionStorage st'
     = if errorCode =? broken_pipe
       then cs_remove r cid (m_connectionStorage st)
       else m_connectionStorage st.
Proof.
  intros Herr Hen st'. subst st'. simpl.
  apply Z.eqb_neq in Herr. rewrite Herr. simpl negb. cbv iota.
  destruct (errorCode =? broken_pipe);
    (rewrite handleUndeliverable_enabled by exact Hen;
     split; [|now repeat split];
     intros r';
     match goal with
     | |- queueOf _ (set_undelivered (insert r (queueOf r ?s ++ _)) ?s) = _ =>
         fold (with_queue r (queueOf r s ++ [setRecipient r p]) s)
     end;
     destruct (decide (r' = r)) as [->|Hne];
     [ rewrite queueOf_with_queue; reflexivity
     | rewrite app_nil_r, queueOf_with_queue_ne by congruence; reflexivity ]).
Qed.

(** X13.  Accounting of a delivery.  When the completion callback of
    [sendTo] runs without error for a payload that is not a sent-status, with
    the delivery status switched off, only statistics change: the sender named
    in the payload has one more sent message and [ts] more bytes, the
    recipient one more received message and [ts] more bytes, and the entries
    of all other users are as before. *)
Theorem delivery_accounting
  (r : user_id_t) (p : MessagePayload) (cid : conn_id_t) (ts : Z)
  (st : ChatServer) :
  isTypeOfSentStatus p = false ->
  m_enableMessageDeliveryStatus st = false ->
  getSender p <> r ->
  let st' := runCallback (CbSendTo r p cid) 0 ts st in
  only_statistics st st'
  /\ statOf (getSender p) st' = countSent (clock st) ts (statOf (getSender p) st)
  /\ statOf r st' = countReceived (clock st) ts (statOf r st)
  /\ s_sent (statOf (getSender p) st') = s_sent (statOf (getSender p) st) + 1
  /\ s_received (statOf r st') = s_received (statOf r st) + 1
  /\ (forall u, u <> getSender p -> u <> r -> statOf u st' = statOf u st).
Proof.
  intros Hty Hoff Hne st'.
  assert (st' = onStat r (countReceived (clock st) ts)
                  (onStat (getSender p) (countSent (clock st) ts) st)) as Hst'.
  { subst st'. simpl. unfold onMessageSent, onMessageSent_with.
    change (isTypeOfSentStatus (setRecipient r p)) with (isTypeOfSentStatus p).
    rewrite Hty. simpl fold_left.
    change (getSender (setRecipient r p)) with (getSender p).
    rewrite clock_getStat.
    rewrite !enable_onStat, Hoff. reflexivity. }
  assert (statOf (getSender p) st'
          = countSent (clock st) ts (statOf (getSender p) st)) as Hs.
  { rewrite Hst', statOf_onStat_ne by exact Hne. apply statOf_onStat. }
  assert (statOf r st' = countReceived (clock st) ts (statOf r st)) as Hr.
  { rewrite Hst', statOf_onStat. f_equal. apply statOf_onStat_ne. congruence. }
  split; [|split; [exact Hs | split; [exact Hr | split; [|split]]]].
  - rewrite Hst'. apply only_statistics_onStat, only_statistics_onStat,
      only_statistics_refl.
  - now rewrite Hs.
  - now rewrite Hr.
  - intros u Hu1 Hu2. rewrite Hst'. now rewrite !statOf_onStat_ne.
Qed.

(** X14.  A message to an offline recipient still counts as sent.  When
    [sendTo] finds no connection of the recipient and the payload is not a
    sent-status, the sender named in the payload gets one more sent message
    and the length of the serialized payload as bytes, although nothing was
    handed to the transport; the statistics of every other user, the
    recipient included, are as before. *)
Theorem offline_send_counts_as_sent
  (r : user_id_t) (p : MessagePayload) (st : ChatServer) :
  cs_size r (m_connectionStorage st) = 0%nat ->
  isTypeOfSentStatus p = false ->
  let st' := sendTo r p st in
  statOf (getSender p) st'
  = countSent (clock st) (Z.of_nat (String.length (toJson p)))
              (statOf (getSender p) st)
  /\ s_sent (statOf (getSender p) st') = s_sent (statOf (getSender p) st) + 1
  /\ (forall u, u <> getSender p -> statOf u st' = statOf u st)
  /\ trace st' = trace st.
Proof.
  intros Hs Hty st'.
  assert (exists s0, st' = onStat (getSender p)
                             (countSent (clock st) (Z.of_nat (String.length (toJson p))))
                             s0
                     /\ (forall u, statOf u s0 = statOf u st)
                     /\ trace s0 = trace st) as (s0 & Hst' & Hstat & Htr).
  { exists (handleUndeliverable r p st). split; [|split].
    - subst st'. unfold sendTo. rewrite Hs. simpl Nat.eqb. cbv iota.
      rewrite onMessageSent_unsent_eq by exact Hty.
      change (getSender (setRecipient r p)) with (getSender p).
      f_equal. f_equal.
      unfold handleUndeliverable. now destruct (negb _).
    - intros u. unfold handleUndeliverable. now destruct (negb _).
    - unfold handleUndeliverable. now destruct (negb _). }
  assert (statOf (getSender p) st'
          = countSent (clock st) (Z.of_nat (String.length (toJson p)))
                      (statOf (getSender p) st)) as H1.
  { rewrite Hst', statOf_onStat. now rewrite Hstat. }
  split; [exact H1|]. split; [now rewrite H1|]. split.
  - intros u Hu. rewrite Hst', statOf_onStat_ne by exact Hu. apply Hstat.
  - rewrite Hst'.
    destruct (only_statistics_onStat (getSender p)
                (countSent (clock st) (Z.of_nat (String.length (toJson p))))
                s0 s0 (only_statistics_refl s0)) as [m ->].
    exact Htr.
Qed.

End Completion.

Lemma failed_send_is_requeued_witness :
  let p := mkPayload 10 [20; 30] "msg" "hi" true "" in
  let st' := runCallback (C := Demo.collaborators) (CbSendTo 20 p 2) 32 0 Demo.server2 in
  queueOf 20 st' = [mkPayload 10 [20] "msg" "hi" true ""]
  /\ cs_size 20 (m_connectionStorage st') = 0%nat.
Proof.
  intros p st'.
  destruct (failed_send_is_requeued (C := Demo.collaborators) 20 p 2 32 0
              Demo.server2) as (Hq & _ & _ & Hc); [discriminate | reflexivity |].
  subst st'. rewrite Hq, Hc. split; reflexivity.
Defined.

Lemma delivery_accounting_witness :
  let p := mkPayload 10 [20] "msg" "hi" true "" in
  let st' := runCallback (C := Demo.collaborators) (CbSendTo 20 p 2) 0 2 Demo.server2 in
  s_sent (statOf 10 st') = 1 /\ s_received (statOf 20 st') = 1.
Proof.
  intros p st'.
  destruct (delivery_accounting (C := Demo.collaborators) 20 p 2 2 Demo.server2)
    as (_ & _ & _ & Hs & Hr & _); [reflexivity | reflexivity | discriminate |].
  subst st'. split.
  - refine (eq_trans Hs _). reflexivity.
  - refine (eq_trans Hr _). reflexivity.
Defined.

Lemma offline_send_counts_as_sent_witness :
  let p := mkPayload 10 [20] "msg" "hi" true "" in
  s_sent (statOf 10 (sendTo (C := Demo.collaborators) 20 p Demo.server0)) = 1.
Proof.
  intros p.
  destruct (offline_send_counts_as_sent (C := Demo.collaborators) 20 p Demo.server0)
    as (_ & Hs & _); [reflexivity | reflexivity |].
  refine (eq_trans Hs _). reflexivity.
Defined.

(** ** Redelivery to a recipient without a connection *)

Section Offline.
Context {C : Collaborators}.

Lemma send_requeues r m rest s :
  r <> 0 ->
  chat_enableUndeliveredQueue (settings s) = true ->
  cs_size r (m_connectionStorage s) = 0%nat ->
  getRecipients m = [r] ->
  Forall (fun m => getRecipients m = [r]) rest ->
  requeues r (send m (with_queue r rest s)).
Proof.
  intros Hr Hen Hsz Hm Hrest.
  assert (isForBot m = false) as Hb.
  { pose proof Hm as Hm'. unfold getRecipients in Hm'.
    unfold isForBot. rewrite Hm'. simpl.
    destruct r; [contradiction | reflexivity | reflexivity]. }
  unfold send. rewrite Hb, Hm. simpl fold_left.
  assert ((r =? 0) = false) as -> by now apply Z.eqb_neq.
  rewrite callOnMessageListeners_effect.
  set (s1 := with_trace _ (with_queue r rest s)).
  destruct (sendTo_offline r m s1 Hsz) as [stats Hst].
  change (settings s1) with (settings s) in Hst. rewrite Hen in Hst.
  rewrite Hst. unfold requeues. simpl settings. simpl m_connectionStorage.
  change (queueOf r (set_statistics (fun _ => stats)
                       (with_queue r (queueOf r s1 ++ [setRecipient r m]) s1)))
    with (queueOf r (with_queue r (queueOf r s1 ++ [setRecipient r m]) s1)).
  rewrite queueOf_with_queue.
  change (queueOf r s1) with (queueOf r (with_queue r rest s)).
  rewrite queueOf_with_queue.
  repeat split; [exact Hen | exact Hsz | | ].
  - intros H. apply app_eq_nil in H as [_ H]. discriminate.
  - apply Forall_app. split; [exact Hrest | now repeat constructor].
Qed.

Lemma redeliver_loop_never_ends r : r <> 0 ->
  forall fuel cnt s, requeues r s -> redeliver_loop fuel r cnt s = None.
Proof.
  intros Hr. induction fuel as [|fuel IH]; intros cnt s (Hen & Hsz & Hne & Hall).
  - simpl. destruct (queueOf r s); [contradiction | reflexivity].
  - simpl. destruct (queueOf r s) as [|m rest] eqn:Hq; [contradiction|].
    apply IH. inversion Hall; subst.
    change (set_undelivered (insert r rest) s) with (with_queue r rest s).
    now apply send_requeues.
Qed.

(** X15.  Redelivery to a recipient that is still offline does not end.
    With the queue enabled, a recipient other than 0 that has no connection
    and a non-empty queue of payloads addressed to it alone (what
    [handleUndeliverable] queues): every payload that the loop of
    [redeliverMessagesTo] pops and sends comes back to the same queue, so
    the queue is never empty and no bound on the number of turns lets the
    call return. *)
Theorem redeliver_offline_never_ends
  (r : user_id_t) (st : ChatServer) :
  r <> 0 ->
  chat_enableUndeliveredQueue (settings st) = true ->
  cs_size r (m_connectionStorage st) = 0%nat ->
  queueOf r st <> [] ->
  Forall (fun m => getRecipients m = [r]) (queueOf r st) ->
  forall fuel, redeliverMessagesTo fuel r st = None.
Proof.
  intros Hr Hen Hsz Hne Hall fuel.
  unfold redeliverMessagesTo, hasUndeliveredMessages. rewrite Hen. simpl negb.
  destruct (queueOf r st) as [|m rest] eqn:Hq; [contradiction|].
  simpl negb. cbv iota.
  apply (redeliver_loop_never_ends r Hr).
  fold (with_queue r (m :: rest) st). unfold requeues.
  rewrite queueOf_with_queue. now repeat split.
Qed.

End Offline.

Lemma redeliver_offline_never_ends_witness :
  let m := mkPayload 10 [20] "msg" "hi" true "" in
  redeliverMessagesTo (C := Demo.collaborators) 1000 20
    (with_queue 20 [m] Demo.server0) = None.
Proof.
  intros m.
  apply (redeliver_offline_never_ends (C := Demo.collaborators) 20
           (with_queue 20 [m] Demo.server0)).
  - discriminate.
  - reflexivity.
  - reflexivity.
  - discriminate.
  - repeat constructor.
Defined.

(** ** Opening a connection: who gets registered *)

Lemma registered_with_queue uid cid c r q st :
  registered uid cid c st -> registered uid cid c (with_queue r q st).
Proof. intros H. exact H. Qed.

Section OpenMore.
Context {C : Collaborators}.

(** X16.  Only an authenticated request with a readable id changes the
    registry.  Whenever [onConnected] returns and the registry is not what it
    was, the authenticator accepted the request, the [id] parameter was
    present and not empty, and [std::stoul] read a number from it; in
    particular a request that fails authentication is never registered,
    whatever its id. *)
Theorem open_registers_only_authenticated
  (fuel : nat) (connection : Connection) (st st' : ChatServer) :
  onConnected fuel connection st = Some (Returned st') ->
  m_connectionStorage st' <> m_connectionStorage st ->
  let params := parseParamsString (queryString connection) in
  validateAuth params (header connection) = true
  /\ hasParam "id" params = true
  /\ getParam "id" params <> ""
  /\ exists id, stoul (getParam "id" params) = StoulValue id.
Proof.
  intros Hrun Hchg params. unfold onConnected in Hrun. fold params in Hrun.
  destruct (validateAuth params (header connection)) eqn:Hauth; simpl in Hrun.
  2: { inversion Hrun; subst. now contradiction Hchg. }
  destruct (Nat.eqb (length params) 0) eqn:Hlen.
  { inversion Hrun; subst. now contradiction Hchg. }
  destruct (hasParam "id" params) eqn:Hhas; simpl in Hrun.
  2: { inversion Hrun; subst. now contradiction Hchg. }
  destruct (String.eqb (getParam "id" params) "") eqn:He.
  { inversion Hrun; subst. now contradiction Hchg. }
  apply String.eqb_neq in He.
  destruct (stoul (getParam "id" params)) as [id| |] eqn:Hid.
  - repeat split; [exact He | now exists id].
  - inversion Hrun; subst. now contradiction Hchg.
  - discriminate.
Qed.

(** The open handler on a request that passes the checks ends for every
    bound that covers the queue of the user, with the connection in the
    registry under the number read from [id]. *)
Lemma onConnected_registers fuel connection id st :
  let params := parseParamsString (queryString connection) in
  validateAuth params (header connection) = true ->
  hasParam "id" params = true ->
  getParam "id" params <> "" ->
  stoul (getParam "id" params) = StoulValue id ->
  (length (queueOf id st) <= fuel)%nat ->
  exists st',
    onConnected fuel connection st = Some (Returned st')
    /\ registered id (getUniqueId connection)
         (mkConnection (getUniqueId connection) id
                       (queryString connection) (header connection)) st'.
Proof.
  intros params Hauth Hhas Hne Hid Hfuel.
  set (c' := mkConnection (getUniqueId connection) id
                          (queryString connection) (header connection)).
  set (st2 := onStat id addConnection (storage_add id connection st)).
  destruct (onStat_frame id addConnection (storage_add id connection st))
    as (Fq & Fs & Fc).
  assert (registered id (getUniqueId connection) c' st2) as Hreg.
  { unfold registered, st2. rewrite Fc. apply storage_add_registered. }
  destruct (chat_enableUndeliveredQueue (settings st)) eqn:Hen.
  - eexists. split.
    + apply onConnected_drains; [exact Hauth | exact Hhas | exact Hne | exact Hid | exact Hen | exact Hfuel].
    + apply registered_with_queue.
      now apply (commute_send_all id (getUniqueId connection) c' []).
  - exists st2. split; [|exact Hreg].
    unfold onConnected. fold params. rewrite Hauth, Hhas. simpl negb.
    destruct (length params) eqn:Hlen.
    { destruct params; discriminate. }
    simpl Nat.eqb. cbv iota.
    destruct (String.eqb (getParam "id" params) "") eqn:He.
    { apply String.eqb_eq in He. contradiction. }
    simpl orb. cbv iota. rewrite Hid. fold st2.
    unfold redeliverMessagesTo.
    assert (settings st2 = settings st) as ->.
    { unfold st2. rewrite Fs. apply (storage_add_queue id connection st). }
    now rewrite Hen.
Qed.

End OpenMore.

Lemma open_registers_only_authenticated_witness :
  exists st',
    onConnected (C := Demo.collaborators) 0 (Demo.asking 5 "20") Demo.server0
    = Some (Returned st')
    /\ stoul "20" = StoulValue 20
    /\ cs_size 20 (m_connectionStorage st') = 1%nat.
Proof.
  eexists. split; [vm_compute; reflexivity|].
  split; [|vm_compute; reflexivity].
  destruct (open_registers_only_authenticated (C := Demo.collaborators) 0
              (Demo.asking 5 "20") Demo.server0 _ eq_refl)
    as (_ & _ & _ & id & Hid).
  - vm_compute. discriminate.
  - reflexivity.
Defined.

(** ** [std::stoul] on decimal digits *)

Lemma digit_of_digit_char d :
  0 <= d <= 9 ->
  digit_of (digit_char d) = Some d
  /\ isspace (digit_char d) = false
  /\ digit_char d <> "-"%char /\ digit_char d <> "+"%char.
Proof.
  intros H.
  assert (d = 0 \/ d = 1 \/ d = 2 \/ d = 3 \/ d = 4 \/ d = 5 \/ d = 6 \/ d = 7
          \/ d = 8 \/ d = 9) as Hd by lia.
  repeat (destruct Hd as [->|Hd]); try subst d;
    (split; [reflexivity|]; split; [reflexivity|];
     split; intros Hc; vm_compute in Hc; discriminate).
Qed.

Lemma read_digits_no_digit rest acc :
  no_leading_digit rest -> read_digits rest acc = acc.
Proof.
  destruct rest as [|c r]; [reflexivity|]. simpl. now intros ->.
Qed.

Lemma read_digits_digits ds rest : forall acc,
  Forall (fun d => 0 <= d <= 9) ds ->
  no_leading_digit rest ->
  read_digits (digits_string ds +:+ rest) (Some acc)
  = Some (fold_left (fun a d => 10 * a + d) ds acc).
Proof.
  induction ds as [|d ds IH]; intros acc Hds Hrest.
  - now apply read_digits_no_digit.
  - inversion Hds as [|? ? Hd Hds']; subst.
    destruct (digit_of_digit_char d Hd) as (Hdig & _).
    change (read_digits (digits_string (d :: ds) +:+ rest) (Some acc))
      with (match digit_of (digit_char d) with
            | Some x => read_digits (digits_string ds +:+ rest)
                                    (Some (10 * default 0 (Some acc) + x))
            | None => Some acc
            end).
    rewrite Hdig. simpl default. now apply IH.
Qed.

(** [std::stoul] on a non-empty run of decimal digits followed by text that
    does not start with a digit. *)
Lemma stoul_digits d ds rest :
  Forall (fun d => 0 <= d <= 9) (d :: ds) ->
  no_leading_digit rest ->
  stoul (digits_string (d :: ds) +:+ rest)
  = if ULONG_MAX <? digits_value (d :: ds) then StoulOutOfRange
    else StoulValue (digits_value (d :: ds)).
Proof.
  intros Hds Hrest. inversion Hds as [|? ? Hd Hds']; subst.
  destruct (digit_of_digit_char d Hd) as (Hdig & Hsp & Hm & Hp).
  unfold stoul.
  change (digits_string (d :: ds) +:+ rest)
    with (String (digit_char d) (digits_string ds +:+ rest)).
  assert (skip_space (String (digit_char d) (digits_string ds +:+ rest))
          = String (digit_char d) (digits_string ds +:+ rest)) as ->.
  { simpl. now rewrite Hsp. }
  assert ((let '(neg, s2) :=
             match String (digit_char d) (digits_string ds +:+ rest) with
             | String "-"%char r => (true, r)
             | String "+"%char r => (false, r)
             | _ => (false, String (digit_char d) (digits_string ds +:+ rest))
             end in
           match read_digits s2 None with
           | None => StoulInvalidArgument
           | Some v =>
               if ULONG_MAX <? v then StoulOutOfRange
               else StoulValue (if neg then (2 ^ 64 - v) mod 2 ^ 64 else v)
           end)
          = match read_digits (String (digit_char d) (digits_string ds +:+ rest)) None with
            | None => StoulInvalidArgument
            | Some v => if ULONG_MAX <? v then StoulOutOfRange else StoulValue v
            end) as ->.
  { destruct (digit_char d) as [[] [] [] [] [] [] [] []]; try reflexivity;
      exfalso; (now apply Hm) || (now apply Hp). }
  change (read_digits (String (digit_char d) (digits_string ds +:+ rest)) None)
    with (match digit_of (digit_char d) with
          | Some x => read_digits (digits_string ds +:+ rest)
                                  (Some (10 * default 0 None + x))
          | None => None
          end).
  rewrite Hdig. simpl default.
  rewrite (read_digits_digits ds rest _ Hds' Hrest).
  reflexivity.
Qed.

Section Lenient.
Context {C : Collaborators}.

(** X17.  The id of a connection is read leniently.  When the [id]
    parameter is a run of decimal digits followed by any text that does not
    start with a digit, and the number written by the digits fits in 64 bits,
    an authenticated request is accepted: the text after the digits is
    ignored and the connection is registered under that number. *)
Theorem open_accepts_id_with_trailing_text
  (fuel : nat) (connection : Connection) (d : Z) (ds : list Z) (rest : string)
  (st : ChatServer) :
  let params := parseParamsString (queryString connection) in
  let id := digits_value (d :: ds) in
  validateAuth params (header connection) = true ->
  hasParam "id" params = true ->
  getParam "id" params = digits_string (d :: ds) +:+ rest ->
  Forall (fun d => 0 <= d <= 9) (d :: ds) ->
  no_leading_digit rest ->
  id <= ULONG_MAX ->
  (length (queueOf id st) <= fuel)%nat ->
  exists st',
    onConnected fuel connection st = Some (Returned st')
    /\ registered id (getUniqueId connection)
         (mkConnection (getUniqueId connection) id
                       (queryString connection) (header connection)) st'.
Proof.
  intros params id Hauth Hhas Hparam Hds Hrest Hfit Hfuel.
  apply onConnected_registers; try assumption.
  - fold params. rewrite Hparam. discriminate.
  - fold params. rewrite Hparam, (stoul_digits d ds rest Hds Hrest).
    fold id. assert ((ULONG_MAX <? id) = false) as -> by now apply Z.ltb_ge.
    reflexivity.
Qed.

End Lenient.

Lemma open_accepts_id_with_trailing_text_witness :
  exists st',
    onConnected (C := Demo.collaborators) 0 (Demo.asking 5 "12abc") Demo.server0
    = Some (Returned st')
    /\ registered 12 5 (mkConnection 5 12 "12abc" []) st'.
Proof.
  apply (open_accepts_id_with_trailing_text (C := Demo.collaborators) 0
           (Demo.asking 5 "12abc") 1 [2] "abc" Demo.server0).
  - reflexivity.
  - reflexivity.
  - reflexivity.
  - repeat constructor; lia.
  - reflexivity.
  - vm_compute. discriminate.
  - apply le_n.
Defined.

(** ** Thread names *)

(** X18.  [getThreadName] hands out stable, distinct names.  As long as
    fewer than [2^64 - 1] names have been given, a call keeps the table
    well formed, keeps every name given before, returns the same name when
    the same thread asks again, and gives a different name to every other
    thread. *)
Theorem getThreadName_stable_and_distinct (tid : Z) (tn : ThreadNames) :
  thread_names_ok tn ->
  nextindex tn + 1 < 2 ^ 64 ->
  let i := (getThreadName tid tn).1 in
  let tn' := (getThreadName tid tn).2 in
  thread_names_ok tn'
  /\ getThreadName tid tn' = (i, tn')
  /\ (forall other j, ids tn !! other = Some j -> ids tn' !! other = Some j)
  /\ (forall other, other <> tid -> (getThreadName other tn').1 <> i).
Proof.
  intros (Hpos & Hlt & Hinj) Hroom i tn'.
  assert (ids tn' !! tid = Some i /\ thread_names_ok tn'
          /\ (forall other j, ids tn !! other = Some j -> ids tn' !! other = Some j))
    as (Hi & Hok & Hkeep).
  { subst i tn'. unfold getThreadName.
    destruct (ids tn !! tid) as [k|] eqn:E; simpl.
    - split; [exact E|]. split; [|auto].
      split; [exact Hpos|]. split; [exact Hlt | exact Hinj].
    - assert ((nextindex tn + 1) mod 2 ^ 64 = nextindex tn + 1) as Hmod
        by (apply Z.mod_small; lia).
      split; [apply lookup_insert_eq|]. split.
      + unfold thread_names_ok. simpl. rewrite Hmod. split; [lia|]. split.
        * intros other j Hj. destruct (decide (tid = other)) as [Heq|Hne].
          -- subst other. rewrite lookup_insert_eq in Hj. inversion Hj. lia.
          -- rewrite lookup_insert_ne in Hj by exact Hne.
             specialize (Hlt _ _ Hj). lia.
        * intros t1 t2 j H1 H2.
          destruct (decide (tid = t1)) as [Heq1|Hne1];
            destruct (decide (tid = t2)) as [Heq2|Hne2].
          -- congruence.
          -- subst t1. rewrite lookup_insert_eq in H1. inversion H1; subst j.
             rewrite lookup_insert_ne in H2 by exact Hne2.
             specialize (Hlt _ _ H2). lia.
          -- subst t2. rewrite lookup_insert_eq in H2. inversion H2; subst j.
             rewrite lookup_insert_ne in H1 by exact Hne1.
             specialize (Hlt _ _ H1). lia.
          -- rewrite lookup_insert_ne in H1 by exact Hne1.
             rewrite lookup_insert_ne in H2 by exact Hne2.
             exact (Hinj _ _ _ H1 H2).
      + intros other j Hj. destruct (decide (tid = other)) as [Heq|Hne].
        * congruence.
        * now rewrite lookup_insert_ne. }
  split; [exact Hok|]. split; [|split; [exact Hkeep|]].
  - unfold getThreadName. now rewrite Hi.
  - intros other Hne. destruct Hok as (_ & Hlt' & Hinj').
    unfold getThreadName. destruct (ids tn' !! other) as [j|] eqn:Ej; simpl.
    + intros Heq. subst j. apply Hne. exact (Hinj' _ _ _ Ej Hi).
    + specialize (Hlt' _ _ Hi). lia.
Qed.

Lemma getThreadName_stable_and_distinct_witness :
  let tn0 := mkThreadNames 0 ∅ in
  let tn1 := (getThreadName 7 tn0).2 in
  (getThreadName 7 tn0).1 = 0
  /\ getThreadName 7 tn1 = (0, tn1)
  /\ (getThreadName 9 tn1).1 <> 0.
Proof.
  intros tn0 tn1.
  assert (thread_names_ok tn0) as Hok.
  { unfold thread_names_ok, tn0. simpl. split; [lia|]. split.
    - intros id i H. now rewrite lookup_empty in H.
    - intros id1 id2 i H. now rewrite lookup_empty in H. }
  destruct (getThreadName_stable_and_distinct 7 tn0 Hok) as (_ & Hs & _ & Hd).
  { reflexivity. }
  split; [reflexivity|]. split; [exact Hs|]. apply Hd. discriminate.
Defined.

(** ** The host argument of the constructors *)

(** X19.  What becomes of the [host] argument.  The plain build keeps a
    host only when it has exactly 15 characters, the secure build only when
    it has at least 7; any other host is dropped without an error, the
    address stays empty and [runService] announces [any:address], so the
    server is not bound to the host that was asked for. *)
Theorem constructor_drops_host (useSSL : bool) (host : string) (port : Z) :
  (if useSSL then (String.length host < 7)%nat else String.length host <> 15%nat) ->
  constructor_address useSSL host = ""
  /\ runService_banner useSSL (constructor_address useSSL host) port
     = "Started at " +:+ (if useSSL then "wss" else "ws")
       +:+ "://[any:address]:" +:+ pretty port.
Proof.
  intros H.
  assert (constructor_address useSSL host = "") as ->.
  { unfold constructor_address. destruct useSSL.
    - apply Nat.leb_gt in H. now rewrite H.
    - apply Nat.eqb_neq in H. now rewrite H. }
  split; [reflexivity|]. unfold runService_banner. simpl.
  now destruct useSSL.
Qed.

Lemma constructor_drops_host_witness :
  constructor_address false "127.0.0.1" = ""
  /\ runService_banner false (constructor_address false "127.0.0.1") 8085
     = "Started at ws://[any:address]:8085".
Proof.
  destruct (constructor_drops_host false "127.0.0.1" 8085) as [H1 H2].
  - vm_compute. discriminate.
  - split; [exact H1|]. rewrite H2. reflexivity.
Defined.

(** ** The configuration reader: sections, defaults and re-reading *)

Section ReaderMore.
Import SettingsHpp.

Lemma value_idem {A} (get : json -> result A) j key def x :
  value get j key def = Ok x -> value get j key x = Ok x.
Proof.
  unfold value. destruct j; try discriminate.
  destruct (assoc key members); [auto|]. now intros [= ->].
Qed.

Ltac next_read H :=
  match type of H with
  | context [bind ?e _] =>
      let E := fresh "E" in
      destruct e eqn:E; simpl bind in H; [|discriminate H]
  end.

Lemma value_string_idem j key def x :
  value_string j key def = Ok x -> value_string j key x = Ok x.
Proof. apply value_idem. Qed.

Lemma value_bool_idem j key def x :
  value_bool j key def = Ok x -> value_bool j key x = Ok x.
Proof. apply value_idem. Qed.

Lemma value_uint16_idem j key def x :
  value_uint16 j key def = Ok x -> value_uint16 j key x = Ok x.
Proof. apply value_idem. Qed.

Lemma value_int_idem j key def x :
  value_int j key def = Ok x -> value_int j key x = Ok x.
Proof. apply value_idem. Qed.

Lemma value_long_idem j key def x :
  value_long j key def = Ok x -> value_long j key x = Ok x.
Proof. apply value_idem. Qed.

Ltac reread :=
  repeat match goal with
  | E : value_string ?j ?k _ = Ok ?x |- context [value_string ?j ?k ?x] =>
      rewrite (value_string_idem j k _ x E)
  | E : value_bool ?j ?k _ = Ok ?x |- context [value_bool ?j ?k ?x] =>
      rewrite (value_bool_idem j k _ x E)
  | E : value_uint16 ?j ?k _ = Ok ?x |- context [value_uint16 ?j ?k ?x] =>
      rewrite (value_uint16_idem j k _ x E)
  | E : value_int ?j ?k _ = Ok ?x |- context [value_int ?j ?k ?x] =>
      rewrite (value_int_idem j k _ x E)
  | E : value_long ?j ?k _ = Ok ?x |- context [value_long ?j ?k ?x] =>
      rewrite (value_long_idem j k _ x E)
  | E : ?e = Ok ?x |- context [?e] => rewrite E
  end; simpl bind.

Lemma read_server_again hw j s s' :
  read_server hw j s = Ok s' ->
  read_server hw j s' = Ok s'
  /\ (watchdog_enabled (watchdog s') = false ->
      connectionLifetimeSeconds (watchdog s')
      = connectionLifetimeSeconds (watchdog s)).
Proof.
  intros H. unfold read_server in *.
  next_read H. next_read H. next_read H. next_read H. next_read H.
  next_read H. next_read H. next_read H.
  injection H as <-. simpl. reread.
  destruct (has a "watchdog").
  - simpl bind in E6.
    destruct (value_bool (index a "watchdog") "enabled"
                (watchdog_enabled (watchdog s))) as [en|] eqn:Een;
      simpl bind in E6; [|discriminate].
    destruct en.
    + destruct (value_long (index a "watchdog") "connectionLifetimeSeconds"
                  (connectionLifetimeSeconds (watchdog s))) as [l|] eqn:El;
        simpl bind in E6; [|discriminate].
      injection E6 as <-. simpl. reread. split; [reflexivity | discriminate].
    + injection E6 as <-. simpl. reread. split; reflexivity.
  - injection E6 as <-. split; reflexivity.
Qed.

Lemma read_restApi_again j r r' :
  read_restApi j r = Ok r' ->
  read_restApi j r' = Ok r'
  /\ (restApi_enabled r' = false -> r' = r).
Proof.
  intros H. unfold read_restApi in *.
  destruct (has j "restApi"); [|injection H as <-; split; reflexivity].
  next_read H. destruct a.
  - next_read H. next_read H. next_read H. next_read H.
    destruct (has a "auth") eqn:Hauth.
    + simpl bind in H.
      destruct (value_string (index a "auth") "type" "noauth") as [ty|] eqn:Ety;
        simpl bind in H; [|discriminate].
      injection H as <-. simpl.
      assert (a0 = true) as ->.
      { unfold at_ in E0. unfold index in E.
        destruct j; try discriminate. destruct (assoc "restApi" members);
          [|discriminate]. injection E0 as <-. simpl in E.
        unfold value_bool in *. congruence. }
      reread. rewrite Hauth. simpl bind. reread.
      split; [reflexivity | discriminate].
    + injection H as <-. simpl.
      assert (a0 = true) as ->.
      { unfold at_ in E0. unfold index in E.
        destruct j; try discriminate. destruct (assoc "restApi" members);
          [|discriminate]. injection E0 as <-. simpl in E.
        unfold value_bool in *. congruence. }
      reread. rewrite Hauth. simpl bind.
      split; [reflexivity | discriminate].
  - injection H as <-. rewrite E. simpl bind. split; reflexivity.
Qed.

Lemma read_chat_again j c c' b :
  read_chat j c = Ok (c', b) -> read_chat j c' = Ok (c', b).
Proof.
  intros H. unfold read_chat in *.
  destruct (has j "chat"); [|now injection H as <- <-].
  next_read H. next_read H. next_read H. next_read H.
  injection H as <- <-. simpl. reread. reflexivity.
Qed.

Lemma read_event_again j e e' :
  read_event j e = Ok e' ->
  read_event j e' = Ok e'
  /\ (event_enabled e' = false ->
      enableRetry e' = enableRetry e
      /\ retryIntervalSeconds e' = retryIntervalSeconds e
      /\ retryCount e' = retryCount e
      /\ sendStrategy e' = sendStrategy e
      /\ targets e' = targets e).
Proof.
  intros H. unfold read_event in *.
  destruct (has j "event"); [|injection H as <-; split; [reflexivity | now repeat split]].
  next_read H. next_read H. destruct a0.
  - next_read H. next_read H. next_read H. next_read H. next_read H.
    injection H as <-. simpl. reread. split; [reflexivity | discriminate].
  - injection H as <-. simpl. reread. split; [reflexivity | now repeat split].
Qed.

(** X20.  Reading the same document again changes nothing: when
    [from_json] returns settings for a document, reading that document over
    the returned settings returns the same settings (and prints the same). *)
Theorem from_json_again (hw : Z) (j : json) (s s' : Settings) (printed : bool) :
  from_json hw j s = Ok (s', printed) ->
  from_json hw j s' = Ok (s', printed).
Proof.
  intros H. unfold from_json in *.
  next_read H. next_read H. next_read H. next_read H.
  destruct a1 as [c b]. injection H as <- <-. simpl.
  destruct (read_server_again _ _ _ _ E) as [-> _].
  destruct (read_restApi_again _ _ _ E0) as [-> _].
  rewrite (read_chat_again _ _ _ _ E1).
  destruct (read_event_again _ _ _ E2) as [-> _].
  reflexivity.
Qed.

(** X21.  Options of a section that ends up disabled are not read.  In
    the settings that [from_json] returns: with the watchdog disabled the
    connection lifetime is the one from before, whatever the document gives;
    with the REST API disabled the whole [restApi] part is the one from
    before; with events disabled the retry options, the send strategy and the
    targets are the ones from before, and a missing [targets] is no error. *)
Theorem from_json_disabled_sections
  (hw : Z) (j : json) (s s' : Settings) (printed : bool) :
  from_json hw j s = Ok (s', printed) ->
  (watchdog_enabled (watchdog (server s')) = false ->
   connectionLifetimeSeconds (watchdog (server s'))
   = connectionLifetimeSeconds (watchdog (server s)))
  /\ (restApi_enabled (restApi s') = false -> restApi s' = restApi s)
  /\ (event_enabled (event s') = false ->
      enableRetry (event s') = enableRetry (event s)
      /\ retryIntervalSeconds (event s') = retryIntervalSeconds (event s)
      /\ retryCount (event s') = retryCount (event s)
      /\ sendStrategy (event s') = sendStrategy (event s)
      /\ targets (event s') = targets (event s)).
Proof.
  intros H. unfold from_json in *.
  next_read H. next_read H. next_read H. next_read H.
  injection H as <- <-. simpl.
  split; [exact (proj2 (read_server_again _ _ _ _ E))|].
  split; [exact (proj2 (read_restApi_again _ _ _ E0))|].
  exact (proj2 (read_event_again _ _ _ E2)).
Qed.

(** X22.  Only the [server] object is required.  A document that is an
    object without a [server] member makes [from_json] throw, whatever else
    it holds.  A document with an empty [server] object and nothing else is
    read without error: every setting keeps its value except [workers],
    which is set to the hardware concurrency (2 when that is reported as 0)
    and not kept, and the absence of [chat] is reported on the console. *)
Theorem from_json_needs_only_server (hw : Z) (s : Settings) :
  (forall members,
     assoc "server" members = None ->
     from_json hw (JObj members) s = Throw "out_of_range.403")
  /\ from_json hw (JObj [("server", JObj [])]) s
     = Ok (mkSettingsHpp
             (mkServerSettings
                (endpoint (server s)) (address (server s)) (port (server s))
                (if hw =? 0 then 2 else hw)
                (tmpDir (server s)) (allowOverrideConnection (server s))
                (watchdog (server s)))
             (restApi s) (chat s) (event s),
           true).
Proof.
  split.
  - intros members H. unfold from_json, read_server, at_. now rewrite H.
  - reflexivity.
Qed.

End ReaderMore.

Lemma continue_without_begin_witness :
  let st1 := onMessage (C := Demo.collaborators) (Demo.conn 1 10)
                       (mkMessage FLAG_FRAGMENT_CONTINUE "AB") Demo.server2 in
  m_frameBuffer st1 !! 10 = Some "AB" /\ trace st1 = [].
Proof.
  intros st1.
  destruct (continue_without_begin (C := Demo.collaborators) (Demo.conn 1 10)
              "AB" "C" Demo.server2 eq_refl) as (Hbuf & Htr & _).
  split; [exact Hbuf | exact Htr].
Defined.

Lemma from_json_again_witness :
  let doc :=
    SettingsHpp.JObj
      [("server",
        SettingsHpp.JObj
          [("port", SettingsHpp.JNum 9000);
           ("watchdog",
            SettingsHpp.JObj
              [("enabled", SettingsHpp.JBool true);
               ("connectionLifetimeSeconds", SettingsHpp.JNum 30)])]);
       ("chat", SettingsHpp.JObj [("maxSize", SettingsHpp.JStr "1M")])] in
  exists s',
    SettingsHpp.from_json 4 doc SettingsHpp.defaults = SettingsHpp.Ok (s', false)
    /\ SettingsHpp.from_json 4 doc s' = SettingsHpp.Ok (s', false)
    /\ SettingsHpp.port (SettingsHpp.server s') = 9000.
Proof.
  intros doc. eexists. split; [vm_compute; reflexivity|]. split.
  - apply (from_json_again 4 doc SettingsHpp.defaults). vm_compute. reflexivity.
  - reflexivity.
Defined.

Lemma from_json_disabled_sections_witness :
  let doc :=
    SettingsHpp.JObj
      [("server",
        SettingsHpp.JObj
          [("watchdog",
            SettingsHpp.JObj
              [("enabled", SettingsHpp.JBool false);
               ("connectionLifetimeSeconds", SettingsHpp.JNum 5)])]);
       ("restApi",
        SettingsHpp.JObj
          [("enabled", SettingsHpp.JBool false); ("port", SettingsHpp.JNum 1)]);
       ("event", SettingsHpp.JObj [("enabled", SettingsHpp.JBool false);
                                   ("retryCount", SettingsHpp.JNum 9)])] in
  exists s',
    SettingsHpp.from_json 4 doc SettingsHpp.defaults = SettingsHpp.Ok (s', true)
    /\ SettingsHpp.connectionLifetimeSeconds
         (SettingsHpp.watchdog (SettingsHpp.server s')) = 600
    /\ SettingsHpp.restApi s' = SettingsHpp.restApi SettingsHpp.defaults.
Proof.
  intros doc. eexists. split; [vm_compute; reflexivity|].
  match goal with
  | |- SettingsHpp.connectionLifetimeSeconds
         (SettingsHpp.watchdog (SettingsHpp.server ?s')) = _ /\ _ =>
      destruct (from_json_disabled_sections 4 doc SettingsHpp.defaults s' true)
        as (Hw & Hr & _); [vm_compute; reflexivity|]
  end.
  split.
  - rewrite Hw; reflexivity.
  - apply Hr. reflexivity.
Defined.

(** ** Offline retention, end to end *)

Section Retention.
Context {C : Collaborators}.

Lemma send_single m r s :
  getRecipients m = [r] -> r <> 0 ->
  send m s = sendTo r m (callOnMessageListeners m s).
Proof.
  intros Hm Hr.
  assert (isForBot m = false) as Hb.
  { pose proof Hm as Hm'. unfold getRecipients in Hm'.
    unfold isForBot. rewrite Hm'. simpl.
    destruct r; [contradiction | reflexivity | reflexivity]. }
  unfold send. rewrite Hb, Hm. simpl fold_left.
  assert ((r =? 0) = false) as -> by now apply Z.eqb_neq.
  reflexivity.
Qed.

(** X23.  A message to an offline user other than user 0 reaches that user
    at the next connect.  A payload addressed to user [r] alone, [r] not 0
    (a payload for user 0 is for the bot and is neither queued nor sent), is
    routed while [r] has no connection and the queue is enabled; then a
    connection opens with an accepted request whose id reads as [r].  The open handler ends (for a
    bound that covers the queue), the queue of [r] is empty afterwards, and
    the single-recipient copy of the payload has been handed to the
    transport on the new connection. *)
Theorem offline_message_delivered_on_connect
  (fuel : nat) (p : MessagePayload) (r : user_id_t) (connection : Connection)
  (st : ChatServer) :
  let params := parseParamsString (queryString connection) in
  let q := setRecipient r p in
  let c' := mkConnection (getUniqueId connection) r
                         (queryString connection) (header connection) in
  getRecipients p = [r] ->
  r <> 0 ->
  cs_size r (m_connectionStorage st) = 0%nat ->
  chat_enableUndeliveredQueue (settings st) = true ->
  validateAuth params (header connection) = true ->
  hasParam "id" params = true ->
  getParam "id" params <> "" ->
  stoul (getParam "id" params) = StoulValue r ->
  (length (queueOf r st) + 1 <= fuel)%nat ->
  exists st',
    onConnected fuel connection (send p st) = Some (Returned st')
    /\ queueOf r st' = []
    /\ In (EvSend c' (toJson q) 129 (CbSendTo r q (getUniqueId connection)))
          (trace st').
Proof.
  intros params q c' Hrec Hr Hoff Hen Hauth Hhas Hne Hid Hfuel.
  set (st1 := send p st).
  assert (queueOf r st1 = queueOf r st ++ [q]
          /\ settings st1 = settings st) as [Hq1 Hs1].
  { unfold st1. rewrite (send_single p r st Hrec Hr).
    rewrite callOnMessageListeners_effect.
    set (s := with_trace _ st).
    destruct (sendTo_offline r p s Hoff) as [stats Hst].
    change (settings s) with (settings st) in Hst. rewrite Hen in Hst.
    rewrite Hst. split; [|reflexivity].
    change (queueOf r (set_statistics (fun _ => stats)
                         (with_queue r (queueOf r s ++ [setRecipient r p]) s)))
      with (queueOf r (with_queue r (queueOf r s ++ [setRecipient r p]) s)).
    now rewrite queueOf_with_queue. }
  set (st2 := onStat r addConnection (storage_add r connection st1)).
  assert (registered r (getUniqueId connection) c' st2) as Hreg.
  { destruct (onStat_frame r addConnection (storage_add r connection st1))
      as (_ & _ & Fc).
    unfold registered, st2. rewrite Fc. apply storage_add_registered. }
  exists (with_queue r [] (send_all (queueOf r st1) st2)). split; [|split].
  - apply onConnected_drains; try assumption.
    + now rewrite Hs1.
    + rewrite Hq1, length_app. simpl. lia.
  - apply queueOf_with_queue.
  - change (trace (with_queue r [] (send_all (queueOf r st1) st2)))
      with (trace (send_all (queueOf r st1) st2)).
    rewrite Hq1. unfold send_all. rewrite fold_left_app. simpl fold_left.
    fold (send_all (queueOf r st) st2).
    destruct (commute_send_all r (getUniqueId connection) c' []
                (queueOf r st) st2 Hreg) as [_ Hreg3].
    set (s3 := send_all (queueOf r st) st2) in *.
    assert (getRecipients q = [r]) as Hqr by reflexivity.
    rewrite (send_single q r s3 Hqr Hr), callOnMessageListeners_effect.
    set (s4 := with_trace _ s3).
    assert (registered r (getUniqueId connection) c' s4) as Hreg4 by exact Hreg3.
    destruct (sendTo_connected r q s4 (cs_size_registered _ _ _ _ Hreg4))
      as [_ Ht].
    rewrite Ht. apply in_or_app. right. unfold sendTo_events.
    apply in_flat_map. exists (getUniqueId connection, Some c'). split.
    + now apply list_elem_of_In, elem_of_map_to_list.
    + now left.
Qed.

End Retention.

Lemma offline_message_delivered_on_connect_witness :
  let p := mkPayload 10 [20] "msg" "hi" true "" in
  exists st',
    onConnected (C := Demo.collaborators) 1 (Demo.asking 5 "20")
                (send (C := Demo.collaborators) p Demo.server0)
    = Some (Returned st')
    /\ queueOf 20 st' = []
    /\ In (EvSend (mkConnection 5 20 "20" []) "hi" 129 (CbSendTo 20 p 5))
          (trace st').
Proof.
  intros p.
  apply (offline_message_delivered_on_connect (C := Demo.collaborators) 1 p 20
           (Demo.asking 5 "20") Demo.server0);
    try reflexivity; discriminate.
Defined.
